(** * HumanTranslator: the browser controller of [web/script.js]

    A shallow embedding of the page controller: the JavaScript values it
    receives from the translation API, the part of the page it reads and
    writes, its event handlers as programs of a small resumption monad
    (state, exceptions and awaited calls), and the life of a loaded page
    as a sequence of events.  The embedding follows the current script, the
    one with the status bar and the copy and download buttons. *)

From Stdlib Require Import List String Ascii NArith ZArith Bool Lia.
From Stdlib Require Import DecimalString.
Import ListNotations.

#[local] Open Scope N_scope.
#[local] Open Scope list_scope.

(** ** JavaScript strings

    A JavaScript string is a sequence of UTF-16 code units. *)

Definition jsstring : Type := list N.

Definition jsstring_eqb (a b : jsstring) : bool :=
  if list_eq_dec N.eq_dec a b then true else false.

(** The source text is UTF-8; [utf16] reads a literal of the source (given as
    its UTF-8 bytes) as the code units the engine holds for it.  Code points
    above U+FFFF become a surrogate pair. *)

Definition cont (b : N) : N := N.land b 63.

Fixpoint utf16_units (bs : list N) : jsstring :=
  match bs with
  | [] => []
  | b0 :: r0 =>
      if b0 <? 128 then b0 :: utf16_units r0
      else
        match r0 with
        | [] => [b0]
        | b1 :: r1 =>
            if b0 <? 224 then (N.land b0 31 * 64 + cont b1) :: utf16_units r1
            else
              match r1 with
              | [] => [b0; b1]
              | b2 :: r2 =>
                  if b0 <? 240
                  then (N.land b0 15 * 4096 + cont b1 * 64 + cont b2)
                         :: utf16_units r2
                  else
                    match r2 with
                    | [] => [b0; b1; b2]
                    | b3 :: r3 =>
                        let cp := N.land b0 7 * 262144 + cont b1 * 4096
                                  + cont b2 * 64 + cont b3 in
                        let v := cp - 65536 in
                        (55296 + v / 1024) :: (56320 + v mod 1024)
                          :: utf16_units r3
                    end
              end
        end
  end.

Definition utf16 (s : string) : jsstring :=
  utf16_units (map N_of_ascii (list_ascii_of_string s)).

(** [WhiteSpace] and [LineTerminator] code points of ECMAScript, the ones
    [String.prototype.trim] strips. *)
Definition is_js_space (c : N) : bool :=
  (c =? 9) || (c =? 10) || (c =? 11) || (c =? 12) || (c =? 13) || (c =? 32)
  || (c =? 160) || (c =? 5760) || ((8192 <=? c) && (c <=? 8202))
  || (c =? 8232) || (c =? 8233) || (c =? 8239) || (c =? 8287)
  || (c =? 12288) || (c =? 65279).

Fixpoint trim_start (s : jsstring) : jsstring :=
  match s with
  | c :: r => if is_js_space c then trim_start r else s
  | [] => []
  end.

Definition trim_end (s : jsstring) : jsstring := rev (trim_start (rev s)).

(** [s.trim()] *)
Definition trim (s : jsstring) : jsstring := trim_end (trim_start s).

(** Truthiness of a string: every string but the empty one. *)
Definition str_truthy (s : jsstring) : bool :=
  match s with [] => false | _ :: _ => true end.

(** [a || b] on two strings. *)
Definition str_or (a b : jsstring) : jsstring := if str_truthy a then a else b.

(** The value a textarea reads back: every CR LF pair, and then every CR
    left, is a single LF. *)
Fixpoint normalize_newlines (s : jsstring) : jsstring :=
  match s with
  | [] => []
  | c :: r =>
      if c =? 13 then
        10 :: match r with
              | d :: r' =>
                  if d =? 10 then normalize_newlines r'
                  else normalize_newlines r
              | [] => []
              end
      else c :: normalize_newlines r
  end.

Definition is_lead_surrogate (c : N) : bool := (55296 <=? c) && (c <=? 56319).

Definition is_trail_surrogate (c : N) : bool := (56320 <=? c) && (c <=? 57343).

(** A string as a USVString: every surrogate that is not part of a pair
    becomes U+FFFD. *)
Fixpoint scalar_values (s : jsstring) : jsstring :=
  match s with
  | [] => []
  | c :: r =>
      if is_lead_surrogate c then
        match r with
        | d :: r' =>
            if is_trail_surrogate d then c :: d :: scalar_values r'
            else 65533 :: scalar_values r
        | [] => [65533]
        end
      else if is_trail_surrogate c then 65533 :: scalar_values r
      else c :: scalar_values r
  end.

(** Decimal rendering of an array index. *)
Definition index_string (n : nat) : jsstring :=
  utf16 (NilEmpty.string_of_uint (Nat.to_uint n)).

(** ** Values received from the API

    The script only ever inspects values that [Response.json()] produced, and
    the results of reading their properties.  JSON numbers are IEEE doubles;
    the script observes a number through its truthiness and its string
    conversion only, so the development is generic in their representation. *)

Class Number (num : Type) : Type := {
  num_truthy : num -> bool;
  num_to_string : num -> jsstring
}.

(** Integers, used for concrete responses.  A double holds an integer
    below 2^53 in magnitude exactly and prints it digit by digit; the
    sample responses stay within that range. *)
#[export] Instance Z_Number : Number Z := {
  num_truthy z := negb (Z.eqb z 0);
  num_to_string z := utf16 (NilZero.string_of_int (Z.to_int z))
}.

#[local] Set Warnings "-register-all".

Inductive value (num : Type) : Type :=
| VUndefined
| VNull
| VBool (b : bool)
| VNum (n : num)
| VStr (s : jsstring)
| VArr (items : list (value num))
| VObj (props : list (jsstring * value num)).

Arguments VUndefined {num}.
Arguments VNull {num}.
Arguments VBool {num} b.
Arguments VNum {num} n.
Arguments VStr {num} s.
Arguments VArr {num} items.
Arguments VObj {num} props.

Section Values.
Context {num : Type} `{Number num}.

(** ToBoolean *)
Definition truthy (v : value num) : bool :=
  match v with
  | VUndefined | VNull => false
  | VBool b => b
  | VNum n => num_truthy n
  | VStr s => str_truthy s
  | VArr _ | VObj _ => true
  end.

(** [a || b] *)
Definition js_or (a b : value num) : value num := if truthy a then a else b.

(** [v === 'lit'] against a string literal: no conversion takes place. *)
Definition strict_eq_str (v : value num) (lit : jsstring) : bool :=
  match v with
  | VStr s => jsstring_eqb s lit
  | _ => false
  end.

(** Whether a parsed object has an own property of the given name. *)
Fixpoint has_own_prop (props : list (jsstring * value num)) (name : jsstring)
  : bool :=
  match props with
  | [] => false
  | (k, _) :: r => jsstring_eqb k name || has_own_prop r name
  end.

(** ToString, as a template literal applies it; [None] is the TypeError it
    throws.  An array joins its elements with commas, [null] and
    [undefined] elements contributing nothing, and throws when the
    conversion of an element does.  A parsed object is converted by the
    [toString] it finds: the one of [Object.prototype], which answers
    ['[object Object]'], unless the object has an own property of that
    name.  An own [toString] is a JSON value and cannot be called; the
    conversion then turns to [valueOf], which is as little callable when it
    is an own property and otherwise answers the object itself, and so
    throws. *)
Fixpoint to_string (v : value num) : option jsstring :=
  match v with
  | VUndefined => Some (utf16 "undefined")
  | VNull => Some (utf16 "null")
  | VBool true => Some (utf16 "true")
  | VBool false => Some (utf16 "false")
  | VNum n => Some (num_to_string n)
  | VStr s => Some s
  | VArr items =>
      (fix join (l : list (value num)) : option jsstring :=
         match l with
         | [] => Some []
         | x :: r =>
             match match x with
                   | VUndefined | VNull => Some []
                   | _ => to_string x
                   end with
             | None => None
             | Some e =>
                 match r with
                 | [] => Some e
                 | _ :: _ =>
                     match join r with
                     | None => None
                     | Some t => Some (e ++ utf16 "," ++ t)
                     end
                 end
             end
         end) items
  | VObj props =>
      if has_own_prop props (utf16 "toString") then None
      else Some (utf16 "[object Object]")
  end.

(** Own property of an object, in a list of properties with distinct keys. *)
Fixpoint own_prop (props : list (jsstring * value num)) (name : jsstring)
  : value num :=
  match props with
  | [] => VUndefined
  | (k, v) :: r => if jsstring_eqb k name then v else own_prop r name
  end.

(** [v.name] for a name that no built-in prototype defines (every name the
    script reads is one).  [None] is the TypeError of reading a property of
    [null] or [undefined]. *)
Definition prop (v : value num) (name : jsstring) : option (value num) :=
  match v with
  | VUndefined | VNull => None
  | VObj props => Some (own_prop props name)
  | _ => Some VUndefined
  end.

Fixpoint indexed {A B : Type} (f : A -> B) (i : nat) (l : list A)
  : list (jsstring * B) :=
  match l with
  | [] => []
  | x :: r => (index_string i, f x) :: indexed f (S i) r
  end.

(** [Object.entries(v)]: the own enumerable string-keyed properties, in
    enumeration order; [None] is the TypeError on [null] and [undefined].
    The property list of [VObj] is held in that order. *)
Definition entries (v : value num) : option (list (jsstring * value num)) :=
  match v with
  | VUndefined | VNull => None
  | VObj props => Some props
  | VArr items => Some (indexed (fun x => x) 0 items)
  | VStr s => Some (indexed (fun c => VStr [c]) 0 s)
  | VBool _ | VNum _ => Some []
  end.

(** *** Conversions at the DOM boundary

    A DOM attribute holds a string.  Assigning to [textContent] (a nullable
    DOMString) turns [null] and [undefined] into the empty string; assigning
    to the [value] of a text field turns only [null] into the empty string;
    everything else goes through ToString, and the assignment throws when
    ToString does. *)
Definition text_content_string (v : value num) : option jsstring :=
  match v with
  | VUndefined | VNull => Some []
  | _ => to_string v
  end.

Definition field_value_string (v : value num) : option jsstring :=
  match v with
  | VNull => Some []
  | _ => to_string v
  end.

(** What a textarea reads back once [v] was assigned to its [value]. *)
Definition textarea_value (v : value num) : option jsstring :=
  option_map normalize_newlines (field_value_string v).

(** The [src] attribute of a media element once [v] was assigned to it: a
    USVString. *)
Definition url_string (v : value num) : option jsstring :=
  option_map scalar_values (to_string v).

End Values.

(** ** The page

    The elements the script looks up by id, with the attributes it reads or
    writes, and what the browser keeps on its behalf: pending timers,
    registered click listeners and the effects it asked for. *)

(** [#health] *)
Record badge : Type := {
  badge_text : jsstring;       (* textContent *)
  badge_class : jsstring       (* className *)
}.

(** An [<option>] of a selector. *)
Record option_el : Type := {
  opt_value : jsstring;
  opt_text : jsstring;         (* textContent: the label *)
  opt_selected : bool          (* selectedness *)
}.

(** A child [<div>] of [#alerts]. *)
Record alert_div : Type := {
  div_class : jsstring;
  div_text : jsstring
}.

(** [#statusBar] *)
Record status_bar : Type := {
  status_text : jsstring;
  status_class : jsstring;
  status_display : jsstring    (* style.display *)
}.

(** [#ttsAudio] *)
Record audio_el : Type := {
  audio_src : jsstring;        (* the src attribute, as assigned *)
  audio_display : jsstring     (* style.display *)
}.

(** A file chosen in [#audioInput]. *)
Record file : Type := {
  file_name : jsstring;
  file_bytes : list N
}.

(** What a [setTimeout] callback of the script does when it fires. *)
Inductive timer_action : Type :=
| HideStatus                   (* statusBar.style.display = 'none' *)
| Welcome.                     (* the welcome message of the load handler *)

Record timer : Type := {
  timer_delay : N;             (* milliseconds *)
  timer_action_of : timer_action
}.

Inductive button : Type :=
| btnTranslate | btnSwap | btnClear | btnSTT | btnTTS
| btnCopyTranslation | btnDownloadTranslation.

(** The functions the script registers as click listeners. *)
Inductive listener : Type :=
| LTranslate | LSwap | LClearAll | LStt | LTts
| LCopyTranslation | LDownloadTranslation.

Inductive request_body : Type :=
| NoBody
| JsonBody (fields : list (jsstring * jsstring))  (* JSON.stringify of an object of strings *)
| FormBody (parts : list (jsstring * file)).      (* FormData *)

Record request : Type := {
  req_url : jsstring;
  req_method : jsstring;
  req_headers : list (jsstring * jsstring);
  req_body : request_body
}.

(** Everything the script asks of the world outside the page, in the order
    it asks. *)
Inductive effect : Type :=
| Fetch (rq : request)               (* fetch(url, init) *)
| ClipboardWrite (text : jsstring)   (* navigator.clipboard.writeText *)
| ExecCopy (selected : jsstring)     (* select() then execCommand('copy') *)
| SaveFile (content : jsstring)      (* click on a download link to a Blob *)
| Play (src : jsstring).             (* ttsAudio.play() *)

(** Modelled from the spec: the markup of the page (index.html) is not among
    the sources.  The text fields are user-editable strings; the script
    calls them textareas, and they are taken to be so.  A field of the
    record holds the string its [value] reads, which a textarea gives with
    its line breaks normalised: what the script reads from a field and
    writes back reaches the field unchanged, what it writes from a response
    goes through [textarea_value]. *)
Record page : Type := {
  healthEl : badge;
  srcText : jsstring;                (* #sourceText .value *)
  outText : jsstring;                (* #translatedText .value *)
  srcLang : list option_el;          (* #sourceLang *)
  tgtLang : list option_el;          (* #targetLang *)
  langInfo : jsstring;               (* #langInfo .textContent *)
  alerts : list alert_div;           (* children of #alerts *)
  audioInput : list file;            (* #audioInput .files *)
  ttsText : jsstring;                (* #ttsText .value *)
  ttsAudio : audio_el;
  statusBar : status_bar;
  timers : list timer;
  listeners : list (button * listener);
  trace : list effect;
  clipboardApi : bool                (* navigator.clipboard is defined *)
}.

Definition set_healthEl (x : badge) (p : page) : page :=
  {| healthEl := x; srcText := srcText p; outText := outText p;
     srcLang := srcLang p; tgtLang := tgtLang p; langInfo := langInfo p;
     alerts := alerts p; audioInput := audioInput p; ttsText := ttsText p;
     ttsAudio := ttsAudio p; statusBar := statusBar p; timers := timers p;
     listeners := listeners p; trace := trace p;
     clipboardApi := clipboardApi p |}.

Definition set_srcText (x : jsstring) (p : page) : page :=
  {| healthEl := healthEl p; srcText := x; outText := outText p;
     srcLang := srcLang p; tgtLang := tgtLang p; langInfo := langInfo p;
     alerts := alerts p; audioInput := audioInput p; ttsText := ttsText p;
     ttsAudio := ttsAudio p; statusBar := statusBar p; timers := timers p;
     listeners := listeners p; trace := trace p;
     clipboardApi := clipboardApi p |}.

Definition set_outText (x : jsstring) (p : page) : page :=
  {| healthEl := healthEl p; srcText := srcText p; outText := x;
     srcLang := srcLang p; tgtLang := tgtLang p; langInfo := langInfo p;
     alerts := alerts p; audioInput := audioInput p; ttsText := ttsText p;
     ttsAudio := ttsAudio p; statusBar := statusBar p; timers := timers p;
     listeners := listeners p; trace := trace p;
     clipboardApi := clipboardApi p |}.

Definition set_srcLang (x : list option_el) (p : page) : page :=
  {| healthEl := healthEl p; srcText := srcText p; outText := outText p;
     srcLang := x; tgtLang := tgtLang p; langInfo := langInfo p;
     alerts := alerts p; audioInput := audioInput p; ttsText := ttsText p;
     ttsAudio := ttsAudio p; statusBar := statusBar p; timers := timers p;
     listeners := listeners p; trace := trace p;
     clipboardApi := clipboardApi p |}.

Definition set_tgtLang (x : list option_el) (p : page) : page :=
  {| healthEl := healthEl p; srcText := srcText p; outText := outText p;
     srcLang := srcLang p; tgtLang := x; langInfo := langInfo p;
     alerts := alerts p; audioInput := audioInput p; ttsText := ttsText p;
     ttsAudio := ttsAudio p; statusBar := statusBar p; timers := timers p;
     listeners := listeners p; trace := trace p;
     clipboardApi := clipboardApi p |}.

Definition set_langInfo (x : jsstring) (p : page) : page :=
  {| healthEl := healthEl p; srcText := srcText p; outText := outText p;
     srcLang := srcLang p; tgtLang := tgtLang p; langInfo := x;
     alerts := alerts p; audioInput := audioInput p; ttsText := ttsText p;
     ttsAudio := ttsAudio p; statusBar := statusBar p; timers := timers p;
     listeners := listeners p; trace := trace p;
     clipboardApi := clipboardApi p |}.

Definition set_alerts (x : list alert_div) (p : page) : page :=
  {| healthEl := healthEl p; srcText := srcText p; outText := outText p;
     srcLang := srcLang p; tgtLang := tgtLang p; langInfo := langInfo p;
     alerts := x; audioInput := audioInput p; ttsText := ttsText p;
     ttsAudio := ttsAudio p; statusBar := statusBar p; timers := timers p;
     listeners := listeners p; trace := trace p;
     clipboardApi := clipboardApi p |}.

Definition set_audioInput (x : list file) (p : page) : page :=
  {| healthEl := healthEl p; srcText := srcText p; outText := outText p;
     srcLang := srcLang p; tgtLang := tgtLang p; langInfo := langInfo p;
     alerts := alerts p; audioInput := x; ttsText := ttsText p;
     ttsAudio := ttsAudio p; statusBar := statusBar p; timers := timers p;
     listeners := listeners p; trace := trace p;
     clipboardApi := clipboardApi p |}.

Definition set_ttsText (x : jsstring) (p : page) : page :=
  {| healthEl := healthEl p; srcText := srcText p; outText := outText p;
     srcLang := srcLang p; tgtLang := tgtLang p; langInfo := langInfo p;
     alerts := alerts p; audioInput := audioInput p; ttsText := x;
     ttsAudio := ttsAudio p; statusBar := statusBar p; timers := timers p;
     listeners := listeners p; trace := trace p;
     clipboardApi := clipboardApi p |}.

Definition set_ttsAudio (x : audio_el) (p : page) : page :=
  {| healthEl := healthEl p; srcText := srcText p; outText := outText p;
     srcLang := srcLang p; tgtLang := tgtLang p; langInfo := langInfo p;
     alerts := alerts p; audioInput := audioInput p; ttsText := ttsText p;
     ttsAudio := x; statusBar := statusBar p; timers := timers p;
     listeners := listeners p; trace := trace p;
     clipboardApi := clipboardApi p |}.

Definition set_statusBar (x : status_bar) (p : page) : page :=
  {| healthEl := healthEl p; srcText := srcText p; outText := outText p;
     srcLang := srcLang p; tgtLang := tgtLang p; langInfo := langInfo p;
     alerts := alerts p; audioInput := audioInput p; ttsText := ttsText p;
     ttsAudio := ttsAudio p; statusBar := x; timers := timers p;
     listeners := listeners p; trace := trace p;
     clipboardApi := clipboardApi p |}.

Definition set_timers (x : list timer) (p : page) : page :=
  {| healthEl := healthEl p; srcText := srcText p; outText := outText p;
     srcLang := srcLang p; tgtLang := tgtLang p; langInfo := langInfo p;
     alerts := alerts p; audioInput := audioInput p; ttsText := ttsText p;
     ttsAudio := ttsAudio p; statusBar := statusBar p; timers := x;
     listeners := listeners p; trace := trace p;
     clipboardApi := clipboardApi p |}.

Definition set_listeners (x : list (button * listener)) (p : page) : page :=
  {| healthEl := healthEl p; srcText := srcText p; outText := outText p;
     srcLang := srcLang p; tgtLang := tgtLang p; langInfo := langInfo p;
     alerts := alerts p; audioInput := audioInput p; ttsText := ttsText p;
     ttsAudio := ttsAudio p; statusBar := statusBar p; timers := timers p;
     listeners := x; trace := trace p; clipboardApi := clipboardApi p |}.

Definition set_trace (x : list effect) (p : page) : page :=
  {| healthEl := healthEl p; srcText := srcText p; outText := outText p;
     srcLang := srcLang p; tgtLang := tgtLang p; langInfo := langInfo p;
     alerts := alerts p; audioInput := audioInput p; ttsText := ttsText p;
     ttsAudio := ttsAudio p; statusBar := statusBar p; timers := timers p;
     listeners := listeners p; trace := x; clipboardApi := clipboardApi p |}.

Definition set_clipboardApi (x : bool) (p : page) : page :=
  {| healthEl := healthEl p; srcText := srcText p; outText := outText p;
     srcLang := srcLang p; tgtLang := tgtLang p; langInfo := langInfo p;
     alerts := alerts p; audioInput := audioInput p; ttsText := ttsText p;
     ttsAudio := ttsAudio p; statusBar := statusBar p; timers := timers p;
     listeners := listeners p; trace := trace p; clipboardApi := x |}.

(** *** Selectors *)

(** [select.value]: the value of the first selected option, or the empty
    string. *)
Definition select_value (opts : list option_el) : jsstring :=
  match find opt_selected opts with
  | Some o => opt_value o
  | None => []
  end.

Definition with_selected (b : bool) (o : option_el) : option_el :=
  {| opt_value := opt_value o; opt_text := opt_text o; opt_selected := b |}.

Fixpoint keep_last_selected (opts : list option_el) : list option_el :=
  match opts with
  | [] => []
  | o :: r =>
      (if opt_selected o && existsb opt_selected r
       then with_selected false o else o) :: keep_last_selected r
  end.

Definition select_first (opts : list option_el) : list option_el :=
  match opts with
  | [] => []
  | o :: r => with_selected true o :: r
  end.

(** Modelled from the spec: the markup of the page (index.html) is not among
    the sources.  The spec speaks of the current source and target language
    code, one of each, so both selectors are taken to be single-choice
    drop-downs.  For such a control the HTML standard keeps at most one
    option selected: whenever the list of options changes, the first option
    is selected if none is, and all but the last selected one are cleared
    if several are. *)
Definition selectedness_setting (opts : list option_el) : list option_el :=
  if existsb opt_selected opts then keep_last_selected opts
  else select_first opts.

(** [select.appendChild(opt)] *)
Definition append_option (o : option_el) (opts : list option_el)
  : list option_el :=
  selectedness_setting (opts ++ [o]).

(** The user picks the [i]-th option of a drop-down. *)
Fixpoint choose (i : nat) (opts : list option_el) : list option_el :=
  match opts with
  | [] => []
  | o :: r =>
      match i with
      | O => with_selected true o :: map (with_selected false) r
      | S j => with_selected false o :: choose j r
      end
  end.

Definition pick (i : nat) (opts : list option_el) : list option_el :=
  if Nat.ltb i (List.length opts) then choose i opts else opts.

(** ** Handlers as programs

    A handler runs on the page until it returns, throws, or awaits a promise;
    an awaited call hands the page back to the event loop together with the
    rest of the handler, which is resumed, on the page as it is by then, with
    the outcome of the call. *)

Section Controller.
Context {num : Type}.

(** What the script sees of a [Response]: the script never looks at the
    status, and [json] is what [r.json()] resolves to, [None] when the body
    is not JSON and the promise rejects. *)
Record response : Type := {
  resp_status : N;
  resp_json : option (value num)
}.

(** Outcome of an awaited promise.  The value a clipboard write resolves
    with is ignored. *)
Inductive reply : Type :=
| Rejected
| Fulfilled (r : response).

Inductive step (A : Type) : Type :=
| Ret (a : A) (p : page)
| Exn (p : page)
| Wait (p : page) (k : reply -> page -> step A).

Arguments Ret {A} a p.
Arguments Exn {A} p.
Arguments Wait {A} p k.

Definition M (A : Type) : Type := page -> step A.

Definition ret {A} (a : A) : M A := fun p => Ret a p.

Fixpoint bind_step {A B} (s : step A) (f : A -> M B) : step B :=
  match s with
  | Ret a p => f a p
  | Exn p => Exn p
  | Wait p k => Wait p (fun r p' => bind_step (k r p') f)
  end.

Definition bind {A B} (m : M A) (f : A -> M B) : M B :=
  fun p => bind_step (m p) f.

Definition throw {A} : M A := fun p => Exn p.

Fixpoint catch_step {A} (s : step A) (h : M A) : step A :=
  match s with
  | Ret a p => Ret a p
  | Exn p => h p
  | Wait p k => Wait p (fun r p' => catch_step (k r p') h)
  end.

(** [try { m } catch (e) { h }]; no handler of the script uses [e]. *)
Definition try_catch {A} (m : M A) (h : M A) : M A :=
  fun p => catch_step (m p) h.

Definition gets {A} (f : page -> A) : M A := fun p => Ret (f p) p.

Definition modify (f : page -> page) : M unit := fun p => Ret tt (f p).

Definition log (e : effect) (p : page) : page :=
  set_trace (trace p ++ [e]) p.

(** An effect the script does not wait for. *)
Definition emit (e : effect) : M unit := modify (log e).

(** [await] of the promise an effect returns. *)
Definition await (e : effect) : M reply :=
  fun p => Wait (log e p) (fun r p' => Ret r p').

(** A value that may be the TypeError of a property read or of a
    conversion. *)
Definition lift {A} (o : option A) : M A :=
  match o with
  | Some a => ret a
  | None => throw
  end.

Fixpoint forEach {A} (l : list A) (f : A -> M unit) : M unit :=
  match l with
  | [] => ret tt
  | x :: r => bind (f x) (fun _ => forEach r f)
  end.

End Controller.

Arguments response num : clear implicits.
Arguments reply num : clear implicits.
Arguments step num A : clear implicits.
Arguments M num A : clear implicits.
Arguments Ret {num A} a p.
Arguments Exn {num A} p.
Arguments Wait {num A} p k.
Arguments Rejected {num}.

Declare Scope js_scope.
Delimit Scope js_scope with js.
Notation "x <- m ;; k" := (bind m (fun x => k))
  (at level 61, m at next level, right associativity) : js_scope.
Notation "m ;;; k" := (bind m (fun _ => k))
  (at level 61, right associativity) : js_scope.
Notation "'try' m 'catch' h" := (try_catch m h)
  (at level 60, m at level 61, h at level 61) : js_scope.

(** ** The script *)

Section Script.
Context {num : Type} `{Number num}.
#[local] Open Scope js_scope.
#[local] Abbreviation M := (M num).
#[local] Abbreviation response := (response num).

(** [const api = {...}] *)
Definition api_health : jsstring := utf16 "/api/health".
Definition api_langs : jsstring := utf16 "/api/languages".
Definition api_translate : jsstring := utf16 "/api/translate".
Definition api_stt : jsstring := utf16 "/api/speech-to-text".
Definition api_tts : jsstring := utf16 "/api/text-to-speech".

(** [fetch(url)] *)
Definition get_request (url : jsstring) : request :=
  {| req_url := url; req_method := utf16 "GET"; req_headers := [];
     req_body := NoBody |}.

(** [fetch(url, { method: 'POST', headers: { 'Content-Type':
    'application/json' }, body: JSON.stringify({...}) })] *)
Definition post_json (url : jsstring) (fields : list (jsstring * jsstring))
  : request :=
  {| req_url := url; req_method := utf16 "POST";
     req_headers := [(utf16 "Content-Type", utf16 "application/json")];
     req_body := JsonBody fields |}.

(** [fetch(url, { method: 'POST', body: fd })] *)
Definition post_form (url : jsstring) (parts : list (jsstring * file))
  : request :=
  {| req_url := url; req_method := utf16 "POST"; req_headers := [];
     req_body := FormBody parts |}.

(** [await fetch(...)]: a rejected promise throws at the [await]. *)
Definition fetch (rq : request) : M response :=
  r <- await (Fetch rq) ;;
  match r with
  | Rejected => throw
  | Fulfilled resp => ret resp
  end.

(** [await r.json()].  The body is taken to have arrived with the response:
    the handler is not handed back to the event loop a second time. *)
Definition json (r : response) : M (value num) := lift (resp_json r).

(** [j.name] *)
Definition field (j : value num) (name : string) : M (value num) :=
  lift (prop j (utf16 name)).

(** [a && b] on values already read. *)
Definition js_and (a b : value num) : value num := if truthy a then b else a.

Definition setTimeout (action : timer_action) (delay : N) : M unit :=
  modify (fun p =>
    set_timers (timers p ++ [{| timer_delay := delay;
                                timer_action_of := action |}]) p).

(** The call sites pass the defaulted arguments ([type = 'info'],
    [duration = 3000]) explicitly. *)
Definition showStatus (message type : jsstring) (duration : N) : M unit :=
  modify (set_statusBar
            {| status_text := message;
               status_class := utf16 "status-bar " ++ type;
               status_display := utf16 "block" |}) ;;;
  setTimeout HideStatus duration.

(** Where [navigator.clipboard] is undefined (an older browser, a page
    not served over HTTPS) the call of [writeText] throws before anything
    is awaited, and the [catch] block runs at once. *)
Definition copyTranslation : M unit :=
  text <- gets (fun p => trim (outText p)) ;;
  if negb (str_truthy text) then
    showStatus (utf16 "لا يوجد نص للنسخ") (utf16 "error") 3000
  else
    try
      (clipboard <- gets clipboardApi ;;
       (if clipboard then ret tt else throw) ;;;
       r <- await (ClipboardWrite text) ;;
       match r with
       | Rejected => throw
       | Fulfilled _ => ret tt
       end ;;;
       showStatus (utf16 "تم نسخ الترجمة بنجاح! 📋") (utf16 "success") 3000)
    catch
      (sel <- gets outText ;;
       emit (ExecCopy sel) ;;;
       showStatus (utf16 "تم نسخ الترجمة بنجاح! 📋") (utf16 "success") 3000).

(** The name of the saved file carries the clock reading and is left out. *)
Definition downloadTranslation : M unit :=
  text <- gets (fun p => trim (outText p)) ;;
  if negb (str_truthy text) then
    showStatus (utf16 "لا يوجد نص للتحميل") (utf16 "error") 3000
  else
    emit (SaveFile text) ;;;
    showStatus (utf16 "تم تحميل الترجمة كملف نصي! 💾") (utf16 "success") 3000.

(** Sets selection styles on the textareas, which the page model does not
    hold. *)
Definition enableTextSelection : M unit := ret tt.

Definition setBadge (text : jsstring) (ok : bool) : M unit :=
  modify (set_healthEl
            {| badge_text := text;
               badge_class := utf16 "badge"
                              ++ (if ok then [] else utf16 " alert") |}).

Definition checkHealth : M unit :=
  try
    (r <- fetch (get_request api_health) ;;
     j <- json r ;;
     status <- field j "status" ;;
     if strict_eq_str status (utf16 "healthy")
     then setBadge (utf16 "Server ✓") true
     else setBadge (utf16 "Server issue") false)
  catch
    (setBadge (utf16 "Server unreachable") false).

(** [d.textContent = msg] comes before the alert area is emptied: when the
    conversion of [msg] throws, the area is as it was. *)
Definition showAlert (msg : value num) (type : jsstring) : M unit :=
  text <- lift (text_content_string msg) ;;
  let d := {| div_class := type; div_text := text |} in
  modify (set_alerts []) ;;;
  modify (fun p => set_alerts (alerts p ++ [d]) p).

Definition alert_lit (msg : string) : M unit :=
  showAlert (VStr (utf16 msg)) (utf16 "alert").

Definition loadLanguages : M unit :=
  try
    (r <- fetch (get_request api_langs) ;;
     j <- json r ;;
     modify (set_tgtLang []) ;;;
     languages <- field j "languages" ;;
     es <- lift (entries languages) ;;
     forEach es (fun '(code, name) =>
       label <- lift (text_content_string name) ;;
       let opt := {| opt_value := code;
                     opt_text := label;
                     opt_selected := jsstring_eqb code (utf16 "en") |} in
       modify (fun p => set_tgtLang (append_option opt (tgtLang p)) p)) ;;;
     total <- field j "total" ;;
     count <- lift (to_string total) ;;
     modify (set_langInfo
               (utf16 "Loaded " ++ count ++ utf16 " languages.")))
  catch
    (alert_lit "Failed to load languages").

Definition translate : M unit :=
  text <- gets (fun p => trim (str_or (srcText p) [])) ;;
  source <- gets (fun p => str_or (select_value (srcLang p)) (utf16 "auto")) ;;
  target <- gets (fun p => select_value (tgtLang p)) ;;
  if negb (str_truthy text) then alert_lit "Please enter text to translate"
  else
    showStatus (utf16 "جاري الترجمة...") (utf16 "info") 3000 ;;;
    try
      (r <- fetch (post_json api_translate
                     [(utf16 "text", text); (utf16 "source", source);
                      (utf16 "target", target)]) ;;
       j <- json r ;;
       success <- field j "success" ;;
       if truthy success then
         translated_text <- field j "translated_text" ;;
         shown <- lift (textarea_value translated_text) ;;
         modify (set_outText shown) ;;;
         source_language <- field j "source_language" ;;
         detected <- lift (to_string source_language) ;;
         target_language <- field j "target_language" ;;
         wanted <- lift (to_string target_language) ;;
         modify (set_langInfo
                   (utf16 "Detected: " ++ detected
                    ++ utf16 " → " ++ wanted)) ;;;
         showStatus (utf16 "تمت الترجمة بنجاح! ✨") (utf16 "success") 3000
       else
         error <- field j "error" ;;
         showAlert (js_or error (VStr (utf16 "Translation failed")))
                   (utf16 "alert") ;;;
         showStatus (utf16 "فشل في الترجمة") (utf16 "error") 3000)
    catch
      (alert_lit "Network error" ;;;
       showStatus (utf16 "خطأ في الشبكة") (utf16 "error") 3000).

Definition swap : M unit :=
  tmp <- gets srcText ;;
  out <- gets outText ;;
  modify (set_srcText out) ;;;
  modify (set_outText (str_or tmp [])) ;;;
  showStatus (utf16 "تم تبديل النصوص") (utf16 "info") 2000.

Definition clearAll : M unit :=
  modify (set_srcText []) ;;;
  modify (set_outText []) ;;;
  modify (set_alerts []) ;;;
  modify (set_langInfo []) ;;;
  showStatus (utf16 "تم مسح جميع النصوص") (utf16 "info") 2000.

Definition stt : M unit :=
  files <- gets audioInput ;;
  match files with
  | [] => alert_lit "Select an audio file"
  | file0 :: _ =>
      showStatus (utf16 "جاري تحويل الصوت إلى نص...") (utf16 "info") 3000 ;;;
      try
        (r <- fetch (post_form api_stt [(utf16 "audio", file0)]) ;;
         j <- json r ;;
         success <- field j "success" ;;
         if truthy success then
           text <- field j "text" ;;
           heard <- lift (textarea_value text) ;;
           modify (set_srcText heard) ;;;
           showAlert (VStr (utf16 "Transcribed successfully"))
                     (utf16 "success") ;;;
           showStatus (utf16 "تم تحويل الصوت إلى نص بنجاح! 🎵")
                      (utf16 "success") 3000
         else
           error <- field j "error" ;;
           showAlert (js_or error (VStr (utf16 "STT failed")))
                     (utf16 "alert") ;;;
           showStatus (utf16 "فشل في تحويل الصوت") (utf16 "error") 3000)
      catch
        (alert_lit "Network error" ;;;
         showStatus (utf16 "خطأ في الشبكة") (utf16 "error") 3000)
  end.

Definition tts : M unit :=
  text <- gets (fun p => trim (str_or (str_or (ttsText p) (srcText p)) [])) ;;
  language <- gets (fun p => str_or (select_value (tgtLang p)) (utf16 "en")) ;;
  if negb (str_truthy text) then alert_lit "Enter text for TTS"
  else
    showStatus (utf16 "جاري تحويل النص إلى صوت...") (utf16 "info") 3000 ;;;
    try
      (r <- fetch (post_json api_tts
                     [(utf16 "text", text); (utf16 "language", language)]) ;;
       j <- json r ;;
       success <- field j "success" ;;
       audio_url <- field j "audio_url" ;;
       if truthy (js_and success audio_url) then
         url <- lift (url_string audio_url) ;;
         modify (fun p =>
           set_ttsAudio {| audio_src := url;
                           audio_display := audio_display (ttsAudio p) |} p) ;;;
         modify (fun p =>
           set_ttsAudio {| audio_src := audio_src (ttsAudio p);
                           audio_display := [] |} p) ;;;
         src <- gets (fun p => audio_src (ttsAudio p)) ;;
         emit (Play src) ;;;
         showStatus (utf16 "تم تحويل النص إلى صوت بنجاح! 🔊")
                    (utf16 "success") 3000
       else
         error <- field j "error" ;;
         showAlert (js_or error (VStr (utf16 "TTS failed")))
                   (utf16 "alert") ;;;
         showStatus (utf16 "فشل في تحويل النص إلى صوت") (utf16 "error") 3000)
    catch
      (alert_lit "Network error" ;;;
       showStatus (utf16 "خطأ في الشبكة") (utf16 "error") 3000).

End Script.

(** ** The life of a page *)

Definition button_eq_dec (a b : button) : {a = b} + {a <> b}.
Proof. decide equality. Defined.

Definition listener_eq_dec (a b : listener) : {a = b} + {a <> b}.
Proof. decide equality. Defined.

Definition registered (b : button) (l : listener)
  (ls : list (button * listener)) : bool :=
  existsb (fun bl => if button_eq_dec (fst bl) b
                     then if listener_eq_dec (snd bl) l then true else false
                     else false) ls.

Inductive textfield : Type := sourceText | translatedText | ttsTextField.

(** What can happen to a loaded page. *)
Inductive event (num : Type) : Type :=
| Click (b : button)
| Settle (i : nat) (r : reply num)     (* the [i]-th awaited promise settles *)
| TimerFires (i : nat)                 (* the [i]-th pending timer fires *)
| Edit (f : textfield) (s : jsstring)  (* the user edits a text field, which
                                          then reads [s] *)
| ChooseSource (i : nat)               (* the user picks a source language *)
| ChooseTarget (i : nat)               (* the user picks a target language *)
| ChooseFiles (fs : list file).        (* the user picks audio files *)

Arguments Click {num} b.
Arguments Settle {num} i r.
Arguments TimerFires {num} i.
Arguments Edit {num} f s.
Arguments ChooseSource {num} i.
Arguments ChooseTarget {num} i.
Arguments ChooseFiles {num} fs.

Fixpoint remove_nth {A} (i : nat) (l : list A) : list A :=
  match l with
  | [] => []
  | x :: r => match i with O => r | S j => x :: remove_nth j r end
  end.

Section Lifetime.
Context {num : Type} `{Number num}.
#[local] Open Scope js_scope.
#[local] Abbreviation M := (M num).

(** [el.addEventListener('click', l)]; registering a listener twice has no
    effect. *)
Definition addEventListener (b : button) (l : listener) : M unit :=
  modify (fun p =>
    if registered b l (listeners p) then p
    else set_listeners (listeners p ++ [(b, l)]) p).

(** The [DOMContentLoaded] listener. *)
Definition onLoad : M unit :=
  checkHealth ;;;
  loadLanguages ;;;
  enableTextSelection ;;;
  addEventListener btnTranslate LTranslate ;;;
  addEventListener btnSwap LSwap ;;;
  addEventListener btnClear LClearAll ;;;
  addEventListener btnSTT LStt ;;;
  addEventListener btnTTS LTts ;;;
  addEventListener btnCopyTranslation LCopyTranslation ;;;
  addEventListener btnDownloadTranslation LDownloadTranslation ;;;
  setTimeout Welcome 1000.

Definition listener_body (l : listener) : M unit :=
  match l with
  | LTranslate => translate
  | LSwap => swap
  | LClearAll => clearAll
  | LStt => stt
  | LTts => tts
  | LCopyTranslation => copyTranslation
  | LDownloadTranslation => downloadTranslation
  end.

(** The callbacks handed to [setTimeout]. *)
Definition fire (a : timer_action) : M unit :=
  match a with
  | HideStatus =>
      modify (fun p =>
        set_statusBar {| status_text := status_text (statusBar p);
                         status_class := status_class (statusBar p);
                         status_display := utf16 "none" |} p)
  | Welcome =>
      showStatus (utf16 "مرحباً بك في HumanTranslator! 🌍") (utf16 "info") 2500
  end.

(** The page and the handlers suspended at an [await]. *)
Record world : Type := {
  dom : page;
  inflight : list (reply num -> page -> step num unit)
}.

(** Run a task up to its end or its next [await].  An exception that
    reaches the event loop leaves the page as it is. *)
Definition settle_task (s : step num unit)
  (waiting : list (reply num -> page -> step num unit)) : world :=
  match s with
  | Ret _ p => {| dom := p; inflight := waiting |}
  | Exn p => {| dom := p; inflight := waiting |}
  | Wait p k => {| dom := p; inflight := waiting ++ [k] |}
  end.

Definition run_task (m : M unit) (w : world) : world :=
  settle_task (m (dom w)) (inflight w).

Definition on_page (f : page -> page) (w : world) : world :=
  {| dom := f (dom w); inflight := inflight w |}.

Definition clicked (b : button) (ls : list (button * listener))
  : list listener :=
  map snd (filter (fun bl => if button_eq_dec (fst bl) b then true else false)
             ls).

Definition react (w : world) (e : event num) : world :=
  match e with
  | Click b =>
      fold_left (fun w' l => run_task (listener_body l) w')
                (clicked b (listeners (dom w))) w
  | Settle i r =>
      match nth_error (inflight w) i with
      | Some k =>
          settle_task (k r (dom w)) (remove_nth i (inflight w))
      | None => w
      end
  | TimerFires i =>
      match nth_error (timers (dom w)) i with
      | Some t =>
          run_task (fire (timer_action_of t))
            (on_page (fun p => set_timers (remove_nth i (timers p)) p) w)
      | None => w
      end
  | Edit sourceText s => on_page (set_srcText s) w
  | Edit translatedText s => on_page (set_outText s) w
  | Edit ttsTextField s => on_page (set_ttsText s) w
  | ChooseSource i => on_page (fun p => set_srcLang (pick i (srcLang p)) p) w
  | ChooseTarget i => on_page (fun p => set_tgtLang (pick i (tgtLang p)) p) w
  | ChooseFiles fs => on_page (set_audioInput fs) w
  end.

(** A document as parsed: nothing registered, pending or requested yet. *)
Definition parsed (p : page) : page :=
  set_trace [] (set_timers [] (set_listeners [] p)).

(** [DOMContentLoaded] on a parsed document. *)
Definition load (p : page) : world :=
  run_task onLoad {| dom := parsed p; inflight := [] |}.

Definition lifetime (p : page) (evs : list (event num)) : world :=
  fold_left react evs (load p).

(** *** One invocation on its own

    A handler run to its end with no other event in between: the [n]-th
    awaited promise settles as [net n] says. *)
Fixpoint finish {A} (net : nat -> reply num) (n : nat) (s : step num A)
  : page :=
  match s with
  | Ret _ p => p
  | Exn p => p
  | Wait p k => finish net (S n) (k (net n) p)
  end.

Definition invoke (m : M unit) (net : nat -> reply num) (p : page) : page :=
  finish net 0 (m p).

(** Requests sent so far. *)
Definition is_fetch (e : effect) : bool :=
  match e with Fetch _ => true | _ => false end.

Definition fetches (p : page) : list effect := filter is_fetch (trace p).

Definition is_fetch_of (url : jsstring) (e : effect) : bool :=
  match e with
  | Fetch rq => jsstring_eqb (req_url rq) url
  | _ => false
  end.

Definition fetches_of (url : jsstring) (p : page) : nat :=
  List.length (filter (is_fetch_of url) (trace p)).

End Lifetime.

Arguments world num : clear implicits.

(** ** Vocabulary of the statements *)

Section Vocabulary.
Context {num : Type} `{Number num}.
#[local] Abbreviation M := (M num).

(** The page after [showStatus(message, type, duration)]. *)
Definition status_shown (message type : jsstring) (duration : N) (p : page)
  : page :=
  set_timers (timers p ++ [{| timer_delay := duration;
                              timer_action_of := HideStatus |}])
    (set_statusBar {| status_text := message;
                      status_class := utf16 "status-bar " ++ type;
                      status_display := utf16 "block" |} p).

(** The page after [showAlert]: the alert area holds one message. *)
Definition alert_shown (msg type : jsstring) (p : page) : page :=
  set_alerts [{| div_class := type; div_text := msg |}] p.

(** The page after [setBadge]. *)
Definition badge_shown (text cls : jsstring) (p : page) : page :=
  set_healthEl {| badge_text := text; badge_class := cls |} p.

(** A successful response with a JSON body. *)
Definition ok (status : N) (j : value num) : reply num :=
  Fulfilled {| resp_status := status; resp_json := Some j |}.

(** A response whose body is not JSON. *)
Definition garbled (status : N) : reply num :=
  Fulfilled {| resp_status := status; resp_json := None |}.

(** [m], started on the page [p], stops at an [await] leaving the page
    [p1]; resumed with the outcome [r] when the page has become [q], it
    returns and leaves [q']. *)
Definition suspends_then (m : M unit) (p p1 : page) (r : reply num)
  (q q' : page) : Prop :=
  exists k, m p = Wait p1 k /\ k r q = Ret tt q'.

(** [m] returns on [p] without awaiting anything. *)
Definition returns (m : M unit) (p p' : page) : Prop := m p = Ret tt p'.

(** A handler that sends at most one request each time it is invoked:
    either it returns at once without sending any, or it sends exactly one,
    awaits it, and whatever the outcome and whatever the page has become,
    returns without throwing, awaiting or sending anything more. *)
Definition one_request (m : M unit) : Prop :=
  forall p,
    (exists p', m p = Ret tt p' /\ fetches p' = fetches p)
    \/ (exists p1 k rq,
          m p = Wait p1 k
          /\ fetches p1 = fetches p ++ [Fetch rq]
          /\ forall r q, exists q', k r q = Ret tt q'
                                    /\ fetches q' = fetches q).

(** As many requests to [url] were sent on [q] as on [p]. *)
Definition same_requests_to (url : jsstring) (p q : page) : Prop :=
  fetches_of url q = fetches_of url p.

(** A request that did not get a JSON body back: the fetch was rejected
    or the body could not be parsed. *)
Definition no_json (r : reply num) : Prop :=
  r = Rejected \/ exists st, r = garbled st.

(** The text the alert would hold if every error that is not a non-empty
    string were replaced by the default, which is not what [||] does. *)
Definition error_or_default (default : jsstring) (error : value num)
  : jsstring :=
  match error with
  | VStr (c :: s) => c :: s
  | _ => default
  end.

Definition opt_pair (o : option_el) : jsstring * jsstring :=
  (opt_value o, opt_text o).

(** The entries of the language map with their names as labels, up to the
    first name whose conversion throws: the entries [loadLanguages] makes
    options of. *)
Fixpoint labelled (es : list (jsstring * value num))
  : list (jsstring * jsstring) :=
  match es with
  | [] => []
  | (code, name) :: r =>
      match text_content_string name with
      | Some label => (code, label) :: labelled r
      | None => []
      end
  end.

(** Every name of the map converts to a label. *)
Definition names_convert (es : list (jsstring * value num)) : bool :=
  forallb (fun e => match text_content_string (snd e) with
                    | Some _ => true
                    | None => false
                    end) es.

Definition count_selected (opts : list option_el) : nat :=
  List.length (filter opt_selected opts).

(** Everything on the page but the two main text fields and the status
    bar with its timer is the same on [p] and [q]. *)
Definition rest_unchanged (p q : page) : Prop :=
  ttsText q = ttsText p /\ srcLang q = srcLang p /\ tgtLang q = tgtLang p
  /\ langInfo q = langInfo p /\ alerts q = alerts p
  /\ healthEl q = healthEl p /\ audioInput q = audioInput p
  /\ ttsAudio q = ttsAudio p /\ listeners q = listeners p
  /\ trace q = trace p.

(** [j.name] where the read is known not to throw. *)
Definition get (j : value num) (name : string) : value num :=
  match prop j (utf16 name) with
  | Some v => v
  | None => VUndefined
  end.

(** The page after the [catch] block of a request handler. *)
Definition network_error (q : page) : page :=
  status_shown (utf16 "خطأ في الشبكة") (utf16 "error") 3000
    (alert_shown (utf16 "Network error") (utf16 "alert") q).

(** The page after the [else] branch of a request handler: the alert holds
    [error || fallback]; when its conversion throws, the alert area is
    untouched by then and the [catch] block runs. *)
Definition failure_shown (j : value num) (fallback status : string)
  (q : page) : page :=
  match text_content_string (js_or (get j "error") (VStr (utf16 fallback)))
  with
  | Some text =>
      status_shown (utf16 status) (utf16 "error") 3000
        (alert_shown text (utf16 "alert") q)
  | None => network_error q
  end.

(** The message the alert area holds after the [else] branch. *)
Definition shown_message (fallback : string) (error : value num)
  : jsstring :=
  match text_content_string (js_or error (VStr (utf16 fallback))) with
  | Some text => text
  | None => utf16 "Network error"
  end.

(** The page after the [if] branch of [translate]: the translation is in
    its field before the language line is built. *)
Definition translation_shown (j : value num) (q : page) : page :=
  match textarea_value (get j "translated_text") with
  | None => network_error q
  | Some shown =>
      match to_string (get j "source_language"),
            to_string (get j "target_language") with
      | Some detected, Some wanted =>
          status_shown (utf16 "تمت الترجمة بنجاح! ✨") (utf16 "success") 3000
            (set_langInfo
               (utf16 "Detected: " ++ detected ++ utf16 " → " ++ wanted)
               (set_outText shown q))
      | _, _ => network_error (set_outText shown q)
      end
  end.

(** The page after the [if] branch of [stt]. *)
Definition transcription_shown (j : value num) (q : page) : page :=
  match textarea_value (get j "text") with
  | None => network_error q
  | Some heard =>
      status_shown (utf16 "تم تحويل الصوت إلى نص بنجاح! 🎵") (utf16 "success")
        3000
        (alert_shown (utf16 "Transcribed successfully") (utf16 "success")
           (set_srcText heard q))
  end.

(** The page after the [if] branch of [tts]. *)
Definition speech_started (j : value num) (q : page) : page :=
  match url_string (get j "audio_url") with
  | None => network_error q
  | Some url =>
      status_shown (utf16 "تم تحويل النص إلى صوت بنجاح! 🔊") (utf16 "success")
        3000
        (log (Play url)
           (set_ttsAudio {| audio_src := url; audio_display := [] |} q))
  end.

Definition translate_request (p : page) : request :=
  post_json api_translate
    [(utf16 "text", trim (srcText p));
     (utf16 "source", str_or (select_value (srcLang p)) (utf16 "auto"));
     (utf16 "target", select_value (tgtLang p))].

Definition tts_request (p : page) : request :=
  post_json api_tts
    [(utf16 "text", trim (str_or (ttsText p) (srcText p)));
     (utf16 "language", str_or (select_value (tgtLang p)) (utf16 "en"))].

(** The [<option>] element [loadLanguages] creates for an entry, its name
    converted. *)
Definition language_option (e : jsstring * jsstring) : option_el :=
  {| opt_value := fst e;
     opt_text := snd e;
     opt_selected := jsstring_eqb (fst e) (utf16 "en") |}.

(** The selector after the options of all entries were appended, in order,
    to an emptied selector. *)
Definition options_of (es : list (jsstring * jsstring)) : list option_el :=
  fold_left (fun opts e => append_option (language_option e) opts) es [].

Definition load_failed (q : page) : page :=
  alert_shown (utf16 "Failed to load languages") (utf16 "alert") q.

(** The page after [loadLanguages] went through the map [es] of the
    response [j]: the selector holds the options made, and the language
    line is written unless a name, or the total, could not be converted. *)
Definition languages_shown (j : value num) (es : list (jsstring * value num))
  (q : page) : page :=
  let filled := set_tgtLang (options_of (labelled es)) q in
  if names_convert es then
    match to_string (get j "total") with
    | Some count =>
        set_langInfo (utf16 "Loaded " ++ count ++ utf16 " languages.") filled
    | None => load_failed filled
    end
  else load_failed filled.

Definition stt_request (f : file) : request :=
  post_form api_stt [(utf16 "audio", f)].

(** The health response parses as JSON with [status] equal to
    ['healthy']. *)
Definition healthy_reply (r : reply num) : Prop :=
  exists st j, r = ok st j /\ get j "status" = VStr (utf16 "healthy").

(** The text of the message in the alert area, if it holds exactly one. *)
Definition alert_texts (p : page) : list jsstring := map div_text (alerts p).

(** ** Invariants of the event loop *)

(** A task that never throws to the event loop and that, every time it
    runs, at an [await] or to its end, leaves a page related by [R] to the
    page it found. *)
Inductive keeps {A : Type} (R : page -> page -> Prop)
  : page -> step num A -> Prop :=
| keeps_ret (p0 : page) (a : A) (p : page) :
    R p0 p -> keeps R p0 (Ret a p)
| keeps_wait (p0 p : page) (k : reply num -> page -> step num A) :
    R p0 p -> (forall r q, keeps R q (k r q)) -> keeps R p0 (Wait p k).

(** A suspended handler that keeps [R] however and whenever it is
    resumed. *)
Definition quiet (R : page -> page -> Prop)
  (k : reply num -> page -> step num unit) : Prop :=
  forall r q, keeps R q (k r q).

Definition calm (R : page -> page -> Prop) (w : world num) : Prop :=
  Forall (quiet R) (inflight w).

(** The values of the named fields of a JSON request body. *)
Definition code_fields (names : list jsstring) (rq : request)
  : list jsstring :=
  match req_body rq with
  | JsonBody fields =>
      map snd (filter (fun kv => existsb (jsstring_eqb (fst kv)) names)
                 fields)
  | _ => []
  end.

(** The language codes a request submits. *)
Definition submitted_codes (rq : request) : list jsstring :=
  code_fields [utf16 "source"; utf16 "target"; utf16 "language"] rq.

(** An effect a click listener or a timer may ask for on a page whose
    target selector is [opts]: any effect but a request, or one of the
    three requests of the click listeners, built on such a page. *)
Definition click_effect (opts : list option_el) (e : effect) : Prop :=
  match e with
  | Fetch rq =>
      (exists p, tgtLang p = opts /\ rq = translate_request p)
      \/ (exists p, tgtLang p = opts /\ rq = tts_request p)
      \/ (exists f, rq = stt_request f)
  | _ => True
  end.

(** What a click listener or a timer does to the page: the target selector
    is untouched and the effects added are click effects. *)
Definition after_click (p q : page) : Prop :=
  tgtLang q = tgtLang p
  /\ exists extra, trace q = trace p ++ extra
                   /\ Forall (click_effect (tgtLang p)) extra.



(** An event other than the settlement of an awaited promise. *)
Definition not_settlement (e : event num) : Prop :=
  match e with
  | Settle _ _ => False
  | _ => True
  end.

(** The load handler is still at work: it is the only suspended handler,
    suspended as [k], no listener is registered, no timer is pending, and
    the effects asked for so far are [t]. *)
Definition loading (k : reply num -> page -> step num unit)
  (t : list effect) (w : world num) : Prop :=
  inflight w = [k] /\ listeners (dom w) = [] /\ timers (dom w) = []
  /\ trace (dom w) = t.

(** A drop-down with options has exactly one of them selected. *)
Definition settled (l : list option_el) : Prop :=
  l = [] \/ count_selected l = 1%nat.

(** The selector reads ['en'], and no option with another code is
    selected. *)
Definition english_selected (l : list option_el) : Prop :=
  select_value l = utf16 "en"
  /\ forall o, In o l -> opt_selected o = true -> opt_value o = utf16 "en".

End Vocabulary.

Arguments utf16 : simpl never.

(** ** Vocabulary of the further statements *)

Section Further.
Context {num : Type} `{Number num}.

(** The page after [clearAll]. *)
Definition cleared (p : page) : page :=
  status_shown (utf16 "تم مسح جميع النصوص") (utf16 "info") 2000
    (set_langInfo [] (set_alerts [] (set_outText [] (set_srcText [] p)))).

(** The page after [swap]. *)
Definition swapped (p : page) : page :=
  status_shown (utf16 "تم تبديل النصوص") (utf16 "info") 2000
    (set_outText (srcText p) (set_srcText (outText p) p)).

(** The status bar shows a message of the given kind. *)
Definition status_is (kind : string) (p : page) : Prop :=
  status_class (statusBar p) = utf16 "status-bar " ++ utf16 kind
  /\ status_display (statusBar p) = utf16 "block".

(** The text of a JSON request body. *)
Definition request_text (rq : request) : list jsstring :=
  code_fields [utf16 "text"] rq.

(** The listeners the load handler registers, in order. *)
Definition all_listeners : list (button * listener) :=
  [(btnTranslate, LTranslate); (btnSwap, LSwap); (btnClear, LClearAll);
   (btnSTT, LStt); (btnTTS, LTts); (btnCopyTranslation, LCopyTranslation);
   (btnDownloadTranslation, LDownloadTranslation)].

(** The page once the load handler has registered its listeners and set
    the timer of the welcome message. *)
Definition registered_page (p : page) : page :=
  set_timers (timers p ++ [{| timer_delay := 1000;
                              timer_action_of := Welcome |}])
    (set_listeners all_listeners p).

(** What a step of the script, a handler or a timer callback, may do to the
    fields that belong to the user and to the alert area: it leaves the
    text-to-speech field, the source selector and the chosen files alone,
    and it leaves the alert area as it is or holding at most one
    message. *)
Definition script_step (p q : page) : Prop :=
  ttsText q = ttsText p /\ srcLang q = srcLang p
  /\ audioInput q = audioInput p
  /\ (alerts q = alerts p \/ (List.length (alerts q) <= 1)%nat).

(** What a click listener or a timer callback may do besides: it changes
    neither the health badge nor the registered listeners. *)
Definition click_step (p q : page) : Prop :=
  script_step p q /\ healthEl q = healthEl p /\ listeners q = listeners p.

(** The health badge and the registered listeners are the same on [p] and
    [q]. *)
Definition same_badge_and_listeners (p q : page) : Prop :=
  healthEl q = healthEl p /\ listeners q = listeners p.

(** What one input of the user makes of the text-to-speech field, the source
    selector and the chosen files. *)
Definition entered (p : page) (e : event num) : page :=
  match e with
  | Edit ttsTextField s => set_ttsText s p
  | ChooseSource i => set_srcLang (pick i (srcLang p)) p
  | ChooseFiles fs => set_audioInput fs p
  | _ => p
  end.

End Further.

(** ** Sample pages and responses *)

Definition blank_page : page :=
  {| healthEl := {| badge_text := []; badge_class := utf16 "badge" |};
     srcText := []; outText := []; srcLang := []; tgtLang := [];
     langInfo := []; alerts := []; audioInput := []; ttsText := [];
     ttsAudio := {| audio_src := []; audio_display := utf16 "none" |};
     statusBar := {| status_text := []; status_class := utf16 "status-bar";
                     status_display := utf16 "none" |};
     timers := []; listeners := []; trace := []; clipboardApi := true |}.

(** A page with text to translate, and one with an audio file chosen. *)
Definition hello_page : page := set_srcText (utf16 "hello") blank_page.

Definition clip : file := {| file_name := utf16 "clip.wav"; file_bytes := [] |}.

Definition audio_page : page := set_audioInput [clip] blank_page.

Definition healthy_body : value Z :=
  VObj [(utf16 "status", VStr (utf16 "healthy"))].

Definition english_french : list (jsstring * value Z) :=
  [(utf16 "en", VStr (utf16 "English")); (utf16 "fr", VStr (utf16 "French"))].

Definition two_languages : value Z :=
  VObj [(utf16 "languages", VObj english_french); (utf16 "total", VNum 2%Z)].



Definition translated : value Z :=
  VObj [(utf16 "success", VBool true);
        (utf16 "translated_text", VStr (utf16 "bonjour"));
        (utf16 "source_language", VStr (utf16 "en"));
        (utf16 "target_language", VStr (utf16 "fr"))].

(** A failure whose [error] is an object. *)
Definition refused : value Z :=
  VObj [(utf16 "success", VBool false);
        (utf16 "error", VObj [(utf16 "code", VNum 500%Z)])].

(** A failure whose [error] is a message. *)
Definition quota_exceeded : value Z :=
  VObj [(utf16 "success", VBool false);
        (utf16 "error", VStr (utf16 "Quota exceeded"))].


(** A page that shows a translation, with white space around it. *)
Definition translation_page : page :=
  set_outText (utf16 " bonjour ") hello_page.

(** A page with text to speak of its own, and one whose text-to-speech
    field holds two spaces. *)
Definition speak_page : page := set_ttsText (utf16 "salut") hello_page.

Definition spaces_page : page := set_ttsText (utf16 "  ") hello_page.

(** A page that still shows an earlier error. *)
Definition error_page : page :=
  set_alerts [{| div_class := utf16 "alert";
                 div_text := utf16 "Network error" |}] hello_page.

Definition transcribed : value Z :=
  VObj [(utf16 "success", VBool true);
        (utf16 "text", VStr (utf16 "good morning"))].

Definition spoken : value Z :=
  VObj [(utf16 "success", VBool true);
        (utf16 "audio_url", VStr (utf16 "/audio/1.mp3"))].

Definition french_german : list (jsstring * value Z) :=
  [(utf16 "fr", VStr (utf16 "French")); (utf16 "de", VStr (utf16 "German"))].

Definition french_german_body : value Z :=
  VObj [(utf16 "languages", VObj french_german); (utf16 "total", VNum 2%Z)].

(** A value that has no string conversion: parsed from [{"toString": 1}],
    it has a [toString] of its own that is no function. *)
Definition unreadable : value Z := VObj [(utf16 "toString", VNum 1%Z)].

(** A translation response whose text is such a value. *)
Definition mistranslated : value Z :=
  VObj [(utf16 "success", VBool true);
        (utf16 "translated_text", unreadable);
        (utf16 "source_language", VStr (utf16 "en"));
        (utf16 "target_language", VStr (utf16 "fr"))].

(** Two lines separated by CR LF, and a translation response that carries
    them. *)
Definition two_lines : jsstring := utf16 "un" ++ [13; 10] ++ utf16 "deux".

Definition translated_lines : value Z :=
  VObj [(utf16 "success", VBool true);
        (utf16 "translated_text", VStr two_lines);
        (utf16 "source_language", VStr (utf16 "en"));
        (utf16 "target_language", VStr (utf16 "fr"))].

(** A language map whose second name has no string conversion. *)
Definition unnamed_language : list (jsstring * value Z) :=
  [(utf16 "fr", VStr (utf16 "French")); (utf16 "xx", unreadable);
   (utf16 "en", VStr (utf16 "English"))].

Definition unnamed_language_body : value Z :=
  VObj [(utf16 "languages", VObj unnamed_language);
        (utf16 "total", VNum 3%Z)].

(** A failure whose [error] is an empty array, and one sent by a healthy
    server. *)
Definition silent_failure : value Z :=
  VObj [(utf16 "success", VBool false); (utf16 "error", VArr [])].

Definition healthy_failure : value Z :=
  VObj [(utf16 "success", VBool false);
        (utf16 "status", VStr (utf16 "healthy"))].


(** The page that shows a translation, in a browser without a clipboard
    interface. *)
Definition old_browser_page : page := set_clipboardApi false translation_page.

(** A JSON body with no language map. *)
Definition service_down : value Z :=
  VObj [(utf16 "error", VStr (utf16 "Service unavailable"))].

(** A visit: the page loads, the user types, translates, swaps, listens. *)
Definition a_visit : list (event Z) :=
  [Settle 0 (ok 200 healthy_body); Settle 0 (ok 200 two_languages);
   TimerFires 0; Edit sourceText (utf16 "hello"); Click btnTranslate;
   Settle 0 (ok 200 translated); Click btnSwap; Click btnTTS;
   Settle 0 Rejected; TimerFires 0; TimerFires 0; Click btnClear].



(** * Properties *)

Section Theory.
Context {num : Type} `{Number num}.
#[local] Abbreviation M := (M num).
#[local] Abbreviation swap := (@swap num).
#[local] Abbreviation checkHealth := (@checkHealth num).
#[local] Abbreviation garbled := (@garbled num).
#[local] Abbreviation fire := (@fire num).
#[local] Abbreviation forEach := (@forEach num).
#[local] Abbreviation modify := (@modify num).

(** ** Strings *)

Lemma str_or_empty (s : jsstring) : str_or s [] = s.
Proof. destruct s; reflexivity. Qed.

Lemma str_truthy_false (s : jsstring) : str_truthy s = false <-> s = [].
Proof. destruct s; simpl; split; congruence. Qed.

Lemma trim_start_blank (s : jsstring) :
  trim_start s = [] <-> forallb is_js_space s = true.
Proof.
  induction s as [|c s IH]; simpl.
  - tauto.
  - destruct (is_js_space c); simpl; [exact IH | split; discriminate].
Qed.

(** A string trims to nothing exactly when it is empty or made of white
    space only. *)
Lemma trim_blank (s : jsstring) :
  trim s = [] <-> forallb is_js_space s = true.
Proof.
  unfold trim, trim_end. split.
  - intros E. destruct (trim_start s) as [|c t] eqn:Ets.
    + now apply trim_start_blank.
    + exfalso.
      assert (Hc : is_js_space c = false).
      { clear E. induction s as [|d s IH]; simpl in Ets; [discriminate|].
        destruct (is_js_space d) eqn:Ed; [auto | congruence]. }
      apply (f_equal (@rev N)) in E. rewrite rev_involutive in E.
      simpl in E.
      assert (Hall : forallb is_js_space (rev (c :: t)) = true)
        by now apply trim_start_blank.
      rewrite forallb_forall in Hall.
      specialize (Hall c). rewrite <- in_rev in Hall.
      rewrite Hall in Hc; [discriminate | now left].
  - intros B. apply trim_start_blank in B. rewrite B. reflexivity.
Qed.

(** A string without a carriage return is read back as written. *)
Lemma normalize_newlines_id (s : jsstring) :
  ~ In 13 s -> normalize_newlines s = s.
Proof.
  induction s as [|c s IH]; intros N; [reflexivity|].
  cbn [normalize_newlines]. destruct (c =? 13) eqn:E.
  - apply N.eqb_eq in E. exfalso. apply N. now left.
  - f_equal. apply IH. intros I. apply N. now right.
Qed.

(** ** Swap *)

Lemma swap_run (p : page) :
  swap p = Ret tt (status_shown (utf16 "تم تبديل النصوص") (utf16 "info") 2000
                     (set_outText (srcText p) (set_srcText (outText p) p))).
Proof.
  unfold swap, bind, gets, modify, showStatus, setTimeout, bind.
  cbn [bind_step]. rewrite str_or_empty. reflexivity.
Qed.

(** C9. One call to [swap] exchanges the contents of the source-text and
    translated-text fields, two calls restore both, and each call leaves
    the other text fields, both selectors, the language line, the alert
    area, the badge, the audio element, the listeners and the requests
    sent as they were (the status bar announces the swap). *)
Theorem swap_involution (p : page) :
  exists p1 p2 : page,
    returns swap p p1 /\ returns swap p1 p2
    /\ srcText p1 = outText p /\ outText p1 = srcText p
    /\ srcText p2 = srcText p /\ outText p2 = outText p
    /\ rest_unchanged p p1 /\ rest_unchanged p p2.
Proof.
  eexists _, _. unfold returns.
  split; [apply swap_run|]. split; [apply swap_run|].
  unfold rest_unchanged. cbn. repeat split.
Qed.

(** ** The request handlers, equation by equation *)

Ltac run_handler :=
  unfold bind, gets, modify, showStatus, setTimeout, try_catch, fetch,
    await, emit, alert_lit, showAlert, json, field, lift, throw, ret, bind;
  cbn [bind_step catch_step resp_json].

Lemma translate_blank (p : page) :
  trim (srcText p) = [] ->
  translate p
  = Ret tt (alert_shown (utf16 "Please enter text to translate")
              (utf16 "alert") p).
Proof.
  intros E. unfold translate. run_handler.
  rewrite str_or_empty, E. reflexivity.
Qed.

Ltac conversions :=
  cbn [text_content_string to_string]; run_handler;
  repeat match goal with
         | |- context [match ?x with Some _ => _ | None => _ end] =>
             destruct x; run_handler
         end.

(** Case analysis on the conversions a response goes through. *)
Ltac outcome :=
  unfold translation_shown, transcription_shown, speech_started,
    failure_shown, languages_shown;
  cbn zeta;
  repeat match goal with
         | |- context [match ?x with Some _ => _ | None => _ end] =>
             destruct x
         | |- context [if names_convert ?e then _ else _] =>
             destruct (names_convert e)
         end.

Lemma translate_sends (p : page) :
  str_truthy (trim (srcText p)) = true ->
  exists k,
    translate p
    = Wait (log (Fetch (translate_request p))
              (status_shown (utf16 "جاري الترجمة...") (utf16 "info") 3000 p)) k
    /\ (forall q, k Rejected q = Ret tt (network_error q))
    /\ (forall st q, k (garbled st) q = Ret tt (network_error q))
    /\ (forall st j q,
          k (ok st j) q
          = match prop j (utf16 "success") with
            | None => Ret tt (network_error q)
            | Some success =>
                if truthy success then Ret tt (translation_shown j q)
                else
                  Ret tt (failure_shown j "Translation failed"
                            "فشل في الترجمة" q)
            end).
Proof.
  intros Ht. unfold translate. run_handler.
  rewrite str_or_empty, Ht. cbn [negb]. run_handler.
  eexists. split; [reflexivity|].
  split; [reflexivity|]. split; [reflexivity|].
  intros st j q. unfold translation_shown, failure_shown. unfold ok, get.
  run_handler.
  destruct j; cbn [prop]; run_handler; try reflexivity.
  destruct (truthy (own_prop props (utf16 "success"))); run_handler;
    conversions; reflexivity.
Qed.

Lemma stt_no_file (p : page) :
  audioInput p = [] ->
  stt p = Ret tt (alert_shown (utf16 "Select an audio file") (utf16 "alert") p).
Proof. intros E. unfold stt. run_handler. rewrite E. reflexivity. Qed.

Lemma stt_sends (p : page) (f : file) (fs : list file) :
  audioInput p = f :: fs ->
  exists k,
    stt p
    = Wait (log (Fetch (stt_request f))
              (status_shown (utf16 "جاري تحويل الصوت إلى نص...")
                 (utf16 "info") 3000 p)) k
    /\ (forall q, k Rejected q = Ret tt (network_error q))
    /\ (forall st q, k (garbled st) q = Ret tt (network_error q))
    /\ (forall st j q,
          k (ok st j) q
          = match prop j (utf16 "success") with
            | None => Ret tt (network_error q)
            | Some success =>
                if truthy success then Ret tt (transcription_shown j q)
                else
                  Ret tt (failure_shown j "STT failed" "فشل في تحويل الصوت" q)
            end).
Proof.
  intros E. unfold stt. run_handler. rewrite E. run_handler.
  eexists. split; [reflexivity|].
  split; [reflexivity|]. split; [reflexivity|].
  intros st j q. unfold transcription_shown, failure_shown. unfold ok, get.
  run_handler.
  destruct j; cbn [prop]; run_handler; try reflexivity.
  destruct (truthy (own_prop props (utf16 "success"))); run_handler;
    conversions; reflexivity.
Qed.

Lemma tts_blank (p : page) :
  trim (str_or (ttsText p) (srcText p)) = [] ->
  tts p = Ret tt (alert_shown (utf16 "Enter text for TTS") (utf16 "alert") p).
Proof.
  intros E. unfold tts. run_handler.
  rewrite str_or_empty, E. reflexivity.
Qed.

Lemma tts_sends (p : page) :
  str_truthy (trim (str_or (ttsText p) (srcText p))) = true ->
  exists k,
    tts p
    = Wait (log (Fetch (tts_request p))
              (status_shown (utf16 "جاري تحويل النص إلى صوت...")
                 (utf16 "info") 3000 p)) k
    /\ (forall q, k Rejected q = Ret tt (network_error q))
    /\ (forall st q, k (garbled st) q = Ret tt (network_error q))
    /\ (forall st j q,
          k (ok st j) q
          = match prop j (utf16 "success") with
            | None => Ret tt (network_error q)
            | Some success =>
                if truthy (js_and success (get j "audio_url"))
                then Ret tt (speech_started j q)
                else
                  Ret tt (failure_shown j "TTS failed"
                            "فشل في تحويل النص إلى صوت" q)
            end).
Proof.
  intros Ht. unfold tts. run_handler.
  rewrite str_or_empty, Ht. cbn [negb]. run_handler.
  eexists. split; [reflexivity|].
  split; [reflexivity|]. split; [reflexivity|].
  intros st j q. unfold speech_started, failure_shown. unfold ok, get.
  run_handler.
  destruct j; cbn [prop]; run_handler; try reflexivity.
  destruct (truthy (js_and (own_prop props (utf16 "success"))
                      (own_prop props (utf16 "audio_url")))); run_handler;
    conversions; reflexivity.
Qed.

Lemma checkHealth_sends (p : page) :
  exists k,
    checkHealth p = Wait (log (Fetch (get_request api_health)) p) k
    /\ (forall q, k Rejected q
                  = Ret tt (badge_shown (utf16 "Server unreachable")
                              (utf16 "badge alert") q))
    /\ (forall st q, k (garbled st) q
                     = Ret tt (badge_shown (utf16 "Server unreachable")
                                 (utf16 "badge alert") q))
    /\ (forall st j q,
          k (ok st j) q
          = match prop j (utf16 "status") with
            | None => Ret tt (badge_shown (utf16 "Server unreachable")
                                (utf16 "badge alert") q)
            | Some status =>
                if strict_eq_str status (utf16 "healthy")
                then Ret tt (badge_shown (utf16 "Server ✓") (utf16 "badge") q)
                else Ret tt (badge_shown (utf16 "Server issue")
                               (utf16 "badge alert") q)
            end).
Proof.
  unfold checkHealth, setBadge. run_handler.
  eexists. split; [reflexivity|].
  split; [reflexivity|]. split; [reflexivity|].
  intros st j q. unfold ok. run_handler.
  destruct j; cbn [prop]; run_handler; try reflexivity.
  destruct (strict_eq_str (own_prop props (utf16 "status")) (utf16 "healthy"));
    reflexivity.
Qed.

Lemma names_convert_cons (code : jsstring) (name : value num)
  (label : jsstring) (es : list (jsstring * value num)) :
  text_content_string name = Some label ->
  names_convert ((code, name) :: es) = names_convert es
  /\ labelled ((code, name) :: es) = (code, label) :: labelled es.
Proof.
  intros E. unfold names_convert. cbn [forallb labelled snd].
  rewrite E. split; reflexivity.
Qed.

(** The loop of [loadLanguages]: the options of the labelled entries are
    appended, and the loop throws at the first name that does not
    convert. *)
Lemma forEach_append (es : list (jsstring * value num)) (p : page) :
  forEach es
    (fun '(code, name) =>
       bind (lift (text_content_string name)) (fun label =>
         modify (fun p =>
           set_tgtLang
             (append_option
                {| opt_value := code; opt_text := label;
                   opt_selected := jsstring_eqb code (utf16 "en") |}
                (tgtLang p)) p))) p
  = let filled :=
      set_tgtLang
        (fold_left (fun opts e => append_option (language_option e) opts)
           (labelled es) (tgtLang p)) p in
    if names_convert es then Ret tt filled else Exn filled.
Proof.
  revert p. induction es as [|[code name] es IH]; intros p.
  - destruct p; reflexivity.
  - cbn [forEach]. unfold bind at 1. unfold bind at 1.
    destruct (text_content_string name) as [label|] eqn:E.
    + destruct (names_convert_cons code name label es E) as [-> ->].
      unfold lift, ret. cbn [bind_step]. unfold modify at 1.
      cbn [bind_step]. rewrite IH. reflexivity.
    + unfold names_convert. cbn [forallb labelled snd]. rewrite E.
      unfold lift, throw. cbn [bind_step fold_left andb].
      destruct p; reflexivity.
Qed.

Lemma loadLanguages_sends (p : page) :
  exists k,
    loadLanguages p = Wait (log (Fetch (get_request api_langs)) p) k
    /\ (forall q, k Rejected q = Ret tt (load_failed q))
    /\ (forall st q, k (garbled st) q = Ret tt (load_failed q))
    /\ (forall st j q,
          k (ok st j) q
          = match prop j (utf16 "languages") with
            | None => Ret tt (load_failed (set_tgtLang [] q))
            | Some languages =>
                match entries languages with
                | None => Ret tt (load_failed (set_tgtLang [] q))
                | Some es => Ret tt (languages_shown j es q)
                end
            end).
Proof.
  unfold loadLanguages. run_handler.
  eexists. split; [reflexivity|].
  split; [reflexivity|]. split; [reflexivity|].
  intros st j q. unfold languages_shown. unfold ok, get. run_handler.
  destruct j; cbn [prop]; run_handler; try reflexivity.
  destruct (entries (own_prop props (utf16 "languages"))) as [es|];
    run_handler; [|reflexivity].
  pose proof (forEach_append es (set_tgtLang [] q)) as L.
  unfold bind, lift, ret, throw, modify in L. cbn zeta in L.
  rewrite L. cbn [tgtLang set_tgtLang].
  destruct (names_convert es); cbn [bind_step catch_step];
    [|reflexivity].
  conversions; reflexivity.
Qed.

(** ** Reading values *)

Lemma jsstring_eqb_eq (a b : jsstring) : jsstring_eqb a b = true <-> a = b.
Proof.
  unfold jsstring_eqb. destruct (list_eq_dec N.eq_dec a b); split;
    congruence.
Qed.

Lemma strict_eq_str_spec (v : value num) (lit : jsstring) :
  strict_eq_str v lit = true <-> v = VStr lit.
Proof.
  destruct v; simpl; try (split; [discriminate | congruence]).
  rewrite jsstring_eqb_eq. split; congruence.
Qed.

(** Only a value whose properties can be read has a truthy property. *)
Lemma truthy_get (j : value num) (name : string) :
  truthy (get j name) = true -> prop j (utf16 name) = Some (get j name).
Proof.
  unfold get. destruct (prop j (utf16 name)); [reflexivity | discriminate].
Qed.

Lemma defined_get (j : value num) (name : string) :
  get j name <> VUndefined -> prop j (utf16 name) = Some (get j name).
Proof.
  unfold get. destruct (prop j (utf16 name)); [reflexivity | congruence].
Qed.

(** Once one property of [j] was read, every other can be. *)
Lemma get_after_read (j : value num) (a : jsstring) (v : value num)
  (name : string) :
  prop j a = Some v -> prop j (utf16 name) = Some (get j name).
Proof.
  unfold get. destruct j; simpl; intros E; try discriminate; reflexivity.
Qed.

Lemma js_or_string (s : jsstring) (d : value num) :
  s <> [] -> text_content_string (js_or (VStr s) d) = Some s.
Proof. destruct s; [congruence | reflexivity]. Qed.

(** Only an object or an array can fail to convert, and both are truthy. *)
Lemma unconvertible_truthy (e : value num) :
  to_string e = None -> truthy e = true.
Proof. destruct e as [| |[]| | | |]; try discriminate; reflexivity. Qed.

Lemma text_content_truthy (e : value num) :
  truthy e = true -> text_content_string e = to_string e.
Proof. destruct e; try discriminate; reflexivity. Qed.

Lemma js_or_falsy (e d : value num) : truthy e = false -> js_or e d = d.
Proof. unfold js_or. now intros ->. Qed.

Lemma js_or_truthy (e d : value num) : truthy e = true -> js_or e d = e.
Proof. unfold js_or. now intros ->. Qed.

(** ** Translation *)

(** C1, as the code has it.  For every translate request whose response
    parses as JSON with a truthy [success] field, and whose
    [translated_text], [source_language] and [target_language] convert to
    strings, the handler finishes with the translated-text field reading
    the response's [translated_text], its line breaks CR and CR LF read
    back as LF, and the language line reading
    ['Detected: <source_language> → <target_language>']; the alert area
    is as it was.  A [translated_text] that is a string is always shown,
    and unchanged when it holds no carriage return.  When the conversion
    of [translated_text] throws, the [catch] block reports
    ['Network error'] on the page as it was; when that of a language
    throws, it does so on the page that already shows the translation. *)
Theorem translate_success (p q : page) (st : N) (j : value num) :
  str_truthy (trim (srcText p)) = true ->
  truthy (get j "success") = true ->
  exists q',
    suspends_then translate p
      (log (Fetch (translate_request p))
         (status_shown (utf16 "جاري الترجمة...") (utf16 "info") 3000 p))
      (ok st j) q q'
    /\ (forall t s d,
          field_value_string (get j "translated_text") = Some t ->
          to_string (get j "source_language") = Some s ->
          to_string (get j "target_language") = Some d ->
          outText q' = normalize_newlines t
          /\ langInfo q' = utf16 "Detected: " ++ s ++ utf16 " → " ++ d
          /\ alerts q' = alerts q)
    /\ (forall t,
          get j "translated_text" = VStr t ->
          outText q' = normalize_newlines t
          /\ (~ In 13 t -> outText q' = t))
    /\ (field_value_string (get j "translated_text") = None ->
        q' = network_error q)
    /\ (forall t,
          field_value_string (get j "translated_text") = Some t ->
          to_string (get j "source_language") = None
          \/ to_string (get j "target_language") = None ->
          q' = network_error (set_outText (normalize_newlines t) q)).
Proof.
  intros Ht Hs.
  destruct (translate_sends p Ht) as (k & Ek & _ & _ & Kok).
  specialize (Kok st j q).
  rewrite (truthy_get _ _ Hs), Hs in Kok.
  eexists. split; [exists k; split; [exact Ek | exact Kok]|].
  unfold translation_shown, textarea_value.
  split; [|split; [|split]].
  - intros t s d -> -> ->. cbn. repeat split.
  - intros t E. rewrite E. cbn [field_value_string to_string option_map].
    assert (O : forall x, outText (network_error (set_outText x q)) = x)
      by reflexivity.
    assert (V : outText
                  match to_string (get j "source_language"),
                        to_string (get j "target_language") with
                  | Some detected, Some wanted =>
                      status_shown (utf16 "تمت الترجمة بنجاح! ✨")
                        (utf16 "success") 3000
                        (set_langInfo
                           (utf16 "Detected: " ++ detected ++ utf16 " → "
                            ++ wanted)
                           (set_outText (normalize_newlines t) q))
                  | _, _ => network_error
                              (set_outText (normalize_newlines t) q)
                  end = normalize_newlines t).
    { destruct (to_string (get j "source_language"));
        [destruct (to_string (get j "target_language"))|]; reflexivity. }
    split; [exact V|]. intros N. rewrite V. now apply normalize_newlines_id.
  - intros ->. reflexivity.
  - intros t -> [E | E]; cbn [option_map]; rewrite E; [reflexivity|].
    destruct (to_string (get j "source_language")); reflexivity.
Qed.

(** C2. When the text to translate is empty or made of white space only, so
    that it trims to nothing, [translate] returns at once: nothing is
    awaited, the requests sent are the same, and the page differs only in
    the alert area, which holds the prompt.  The same holds of [tts] when
    its text, [ttsText.value || srcText.value], is empty or white space. *)
Theorem empty_text_prompts (p p2 : page) :
  forallb is_js_space (srcText p) = true ->
  forallb is_js_space (str_or (ttsText p2) (srcText p2)) = true ->
  (returns translate p
     (set_alerts [{| div_class := utf16 "alert";
                     div_text := utf16 "Please enter text to translate" |}] p)
   /\ fetches (set_alerts [{| div_class := utf16 "alert";
                     div_text := utf16 "Please enter text to translate" |}] p)
      = fetches p)
  /\ (returns tts p2
        (set_alerts [{| div_class := utf16 "alert";
                        div_text := utf16 "Enter text for TTS" |}] p2)
      /\ fetches (set_alerts [{| div_class := utf16 "alert";
                        div_text := utf16 "Enter text for TTS" |}] p2)
         = fetches p2).
Proof.
  intros E1 E2. apply trim_blank in E1, E2. split; split.
  - apply translate_blank, E1.
  - reflexivity.
  - apply tts_blank, E2.
  - reflexivity.
Qed.

(** ** Failures reported by the server *)

Lemma failure_text (j : value num) (fallback status : string) (q : page) :
  alert_texts (failure_shown j fallback status q)
  = [shown_message fallback (get j "error")].
Proof.
  unfold failure_shown, shown_message.
  destruct (text_content_string _); reflexivity.
Qed.

(** The [else] branch touches neither the audio element nor the effects. *)
Lemma failure_quiet (j : value num) (fallback status : string) (q : page) :
  ttsAudio (failure_shown j fallback status q) = ttsAudio q
  /\ trace (failure_shown j fallback status q) = trace q
  /\ outText (failure_shown j fallback status q) = outText q
  /\ langInfo (failure_shown j fallback status q) = langInfo q
  /\ alerts (failure_shown j fallback status q)
     = [{| div_class := utf16 "alert";
           div_text := shown_message fallback (get j "error") |}].
Proof.
  unfold failure_shown, shown_message.
  destruct (text_content_string _); repeat split.
Qed.

(** What [error || fallback] shows, case by case. *)
Lemma shown_error_cases (e : value num) (fallback : string) :
  (forall s, e = VStr s -> s <> [] -> shown_message fallback e = s)
  /\ (truthy e = false -> shown_message fallback e = utf16 fallback)
  /\ (forall t, truthy e = true -> to_string e = Some t ->
        shown_message fallback e = t)
  /\ (to_string e = None ->
      shown_message fallback e = utf16 "Network error").
Proof.
  unfold shown_message. split; [|split; [|split]].
  - intros s -> Hs. now rewrite js_or_string.
  - intros F. rewrite (js_or_falsy _ _ F). reflexivity.
  - intros t T E. rewrite (js_or_truthy _ _ T), (text_content_truthy _ T), E.
    reflexivity.
  - intros E. pose proof (unconvertible_truthy e E) as T.
    rewrite (js_or_truthy _ _ T), (text_content_truthy _ T), E. reflexivity.
Qed.

(** C3, as the code has it.  For every response of the translate,
    speech-to-text or text-to-speech endpoint whose JSON has [success]
    equal to [false], the handler finishes with one message in the alert
    area: the error verbatim when it is a non-empty string, the endpoint's
    fallback (['Translation failed'], ['STT failed'], ['TTS failed']) when
    the error is missing or falsy, the string conversion of the error when
    it is truthy but not a string, and ['Network error'] when that
    conversion throws. *)
Theorem server_failure_shown (p1 p2 p3 q : page) (f : file) (fs : list file)
  (st : N) (j : value num) :
  str_truthy (trim (srcText p1)) = true ->
  audioInput p2 = f :: fs ->
  str_truthy (trim (str_or (ttsText p3) (srcText p3))) = true ->
  get j "success" = VBool false ->
  (exists a1 q1,
     suspends_then translate p1 a1 (ok st j) q q1
     /\ alert_texts q1 = [shown_message "Translation failed" (get j "error")])
  /\ (exists a2 q2,
        suspends_then stt p2 a2 (ok st j) q q2
        /\ alert_texts q2 = [shown_message "STT failed" (get j "error")])
  /\ (exists a3 q3,
        suspends_then tts p3 a3 (ok st j) q q3
        /\ alert_texts q3 = [shown_message "TTS failed" (get j "error")])
  /\ (forall fallback,
        (forall s, get j "error" = VStr s -> s <> [] ->
           shown_message fallback (get j "error") = s)
        /\ (truthy (get j "error") = false ->
            shown_message fallback (get j "error") = utf16 fallback)
        /\ (forall t, truthy (get j "error") = true ->
              to_string (get j "error") = Some t ->
              shown_message fallback (get j "error") = t)
        /\ (to_string (get j "error") = None ->
            shown_message fallback (get j "error") = utf16 "Network error")).
Proof.
  intros H1 H2 H3 Hs.
  assert (Ps : prop j (utf16 "success") = Some (VBool false)).
  { rewrite <- Hs. apply defined_get. rewrite Hs. discriminate. }
  split; [|split; [|split]].
  - destruct (translate_sends p1 H1) as (k & Ek & _ & _ & Kok).
    specialize (Kok st j q). rewrite Ps in Kok. cbn [truthy] in Kok.
    eexists _, _. split; [exists k; split; [exact Ek | exact Kok]|].
    apply failure_text.
  - destruct (stt_sends p2 f fs H2) as (k & Ek & _ & _ & Kok).
    specialize (Kok st j q). rewrite Ps in Kok. cbn [truthy] in Kok.
    eexists _, _. split; [exists k; split; [exact Ek | exact Kok]|].
    apply failure_text.
  - destruct (tts_sends p3 H3) as (k & Ek & _ & _ & Kok).
    specialize (Kok st j q). rewrite Ps in Kok.
    cbn [truthy js_and] in Kok.
    eexists _, _. split; [exists k; split; [exact Ek | exact Kok]|].
    apply failure_text.
  - intros fallback. apply shown_error_cases.
Qed.

(** ** Text to speech *)



(** ** Health *)

(** C5. After [checkHealth]: when the response parses as JSON with [status]
    equal to ['healthy'] the badge reads ['Server ✓'] with class ['badge'];
    for any other outcome (another status, a rejected fetch, a body that is
    not JSON) it reads ['Server issue'] or ['Server unreachable'] with
    class ['badge alert'].  Nothing else on the page changes. *)
Theorem health_badge (p q : page) (r : reply num) :
  exists q',
    suspends_then checkHealth p (log (Fetch (get_request api_health)) p)
      r q q'
    /\ ((healthy_reply r
         /\ q' = badge_shown (utf16 "Server ✓") (utf16 "badge") q)
        \/ (~ healthy_reply r
            /\ (q' = badge_shown (utf16 "Server issue")
                       (utf16 "badge alert") q
                \/ q' = badge_shown (utf16 "Server unreachable")
                          (utf16 "badge alert") q))).
Proof.
  destruct (checkHealth_sends p) as (k & Ek & Krej & Kgar & Kok).
  destruct r as [|[st [j|]]].
  - eexists. split; [exists k; split; [exact Ek | apply Krej]|].
    right. split; [|now right].
    intros (st & j & E & _). discriminate.
  - specialize (Kok st j q). fold (ok st j).
    destruct (prop j (utf16 "status")) as [s|] eqn:Ps.
    + assert (Gs : get j "status" = s) by (unfold get; now rewrite Ps).
      destruct (strict_eq_str s (utf16 "healthy")) eqn:Es;
        (eexists; split; [exists k; split; [exact Ek | exact Kok]|]).
      * left. split; [|reflexivity].
        exists st, j. split; [reflexivity|].
        rewrite Gs. now apply strict_eq_str_spec.
      * right. split; [|now left].
        intros (st' & j' & E & G). injection E as _ <-.
        rewrite Gs in G. apply strict_eq_str_spec in G. congruence.
    + eexists. split; [exists k; split; [exact Ek | exact Kok]|].
      right. split; [|now right].
      intros (st' & j' & E & G). injection E as _ <-.
      unfold get in G. rewrite Ps in G. discriminate.
  - eexists. split; [exists k; split; [exact Ek | apply (Kgar st)]|].
    right. split; [|now right].
    intros (st' & j' & E & _). discriminate.
Qed.

(** ** The target selector *)

Lemma with_selected_same (o : option_el) :
  with_selected (opt_selected o) o = o.
Proof. destruct o; reflexivity. Qed.

Lemma keep_last_selected_pairs (l : list option_el) :
  map opt_pair (keep_last_selected l) = map opt_pair l.
Proof.
  induction l as [|o r IH]; simpl; [reflexivity|].
  rewrite IH. destruct (opt_selected o && existsb opt_selected r);
    reflexivity.
Qed.

Lemma selectedness_setting_pairs (l : list option_el) :
  map opt_pair (selectedness_setting l) = map opt_pair l.
Proof.
  unfold selectedness_setting. destruct (existsb opt_selected l).
  - apply keep_last_selected_pairs.
  - destruct l; reflexivity.
Qed.

Lemma append_option_pairs (o : option_el) (l : list option_el) :
  map opt_pair (append_option o l) = map opt_pair l ++ [opt_pair o].
Proof.
  unfold append_option. rewrite selectedness_setting_pairs, map_app.
  reflexivity.
Qed.

Lemma options_from_pairs (es : list (jsstring * jsstring))
  (acc : list option_el) :
  map opt_pair
    (fold_left (fun opts e => append_option (language_option e) opts) es acc)
  = map opt_pair acc ++ es.
Proof.
  revert acc. induction es as [|[c n] es IH]; intros acc; simpl.
  - now rewrite app_nil_r.
  - rewrite IH, append_option_pairs, <- app_assoc. reflexivity.
Qed.

(** The selector lists one option per entry, in order. *)
Lemma options_of_pairs (es : list (jsstring * jsstring)) :
  map opt_pair (options_of es) = es.
Proof. unfold options_of. now rewrite options_from_pairs. Qed.

Lemma labelled_strings (names : list (jsstring * jsstring)) :
  labelled (map (fun cn => (fst cn, VStr (snd cn))) names) = names
  /\ names_convert (map (fun cn => (fst cn, VStr (snd cn))) names) = true.
Proof.
  induction names as [|[c n] names [IH1 IH2]]; [now split|].
  cbn [map fst snd].
  destruct (names_convert_cons c (VStr n) n
              (map (fun cn => (fst cn, VStr (snd cn))) names) eq_refl)
    as [-> ->].
  rewrite IH1. now split.
Qed.

(** When every name converts, every entry is labelled. *)
Lemma labelled_codes (es : list (jsstring * value num)) :
  names_convert es = true -> map fst (labelled es) = map fst es.
Proof.
  induction es as [|[c n] es IH]; [reflexivity|].
  unfold names_convert. cbn [forallb labelled snd map fst].
  destruct (text_content_string n); [|discriminate].
  cbn [andb map fst]. intros E. f_equal. now apply IH.
Qed.

(** The labelled entries are the first entries of the map. *)
Lemma labelled_prefix (es : list (jsstring * value num)) :
  exists rest, map fst es = map fst (labelled es) ++ rest
               /\ (names_convert es = false -> rest <> []).
Proof.
  induction es as [|[c n] es (rest & E & F)].
  - exists []. split; [reflexivity | discriminate].
  - unfold names_convert in *. cbn [forallb labelled snd map fst].
    destruct (text_content_string n).
    + exists rest. cbn [map fst app andb]. split; [now f_equal | exact F].
    + exists (c :: map fst es). split; [reflexivity | discriminate].
Qed.

Lemma count_selected_none (l : list option_el) :
  count_selected (map (with_selected false) l) = 0%nat.
Proof. unfold count_selected. induction l; simpl; auto. Qed.

Lemma count_selected_app (l r : list option_el) :
  count_selected (l ++ r) = (count_selected l + count_selected r)%nat.
Proof. unfold count_selected. now rewrite filter_app, length_app. Qed.

Lemma existsb_count (l : list option_el) :
  existsb opt_selected l = negb (Nat.eqb (count_selected l) 0).
Proof.
  unfold count_selected. induction l as [|o r IH]; simpl; [reflexivity|].
  destruct (opt_selected o); simpl; [reflexivity | exact IH].
Qed.

(** Appending a selected option clears every other one. *)
Lemma append_selected (o : option_el) (l : list option_el) :
  opt_selected o = true ->
  append_option o l = map (with_selected false) l ++ [o].
Proof.
  intros So. unfold append_option, selectedness_setting.
  assert (E : forall l', existsb opt_selected (l' ++ [o]) = true).
  { intros l'. rewrite existsb_app. simpl. rewrite So.
    now rewrite orb_true_r. }
  rewrite E. induction l as [|x r IH]; simpl.
  - rewrite So. reflexivity.
  - rewrite E, andb_true_r, IH. f_equal.
    destruct (opt_selected x) eqn:Sx; [reflexivity|].
    rewrite <- Sx. symmetry. apply with_selected_same.
Qed.

Lemma keep_single (l : list option_el) :
  (count_selected l <= 1)%nat -> keep_last_selected l = l.
Proof.
  induction l as [|x r IH]; simpl; [reflexivity|].
  unfold count_selected in *. simpl.
  destruct (opt_selected x) eqn:Sx; simpl; intros Hc.
  - assert (Z0 : count_selected r = 0%nat) by (unfold count_selected; lia).
    rewrite existsb_count, Z0. simpl. f_equal. apply IH. lia.
  - f_equal. apply IH. exact Hc.
Qed.

(** Appending an unselected option to a selector with one selected option
    changes no selection. *)
Lemma append_unselected (o : option_el) (l : list option_el) :
  opt_selected o = false -> count_selected l = 1%nat ->
  append_option o l = l ++ [o].
Proof.
  intros So C. unfold append_option, selectedness_setting.
  assert (C' : count_selected (l ++ [o]) = 1%nat).
  { rewrite count_selected_app, C. unfold count_selected. simpl.
    now rewrite So. }
  rewrite existsb_count, C'. simpl. apply keep_single. lia.
Qed.

Lemma append_settled (o : option_el) (l : list option_el) :
  settled l -> count_selected (append_option o l) = 1%nat.
Proof.
  intros S. destruct (opt_selected o) eqn:So.
  - rewrite (append_selected _ _ So), count_selected_app, count_selected_none.
    unfold count_selected. simpl. now rewrite So.
  - destruct S as [-> | C].
    + unfold append_option, selectedness_setting, count_selected. simpl.
      now rewrite So.
    + rewrite (append_unselected _ _ So C), count_selected_app, C.
      unfold count_selected. simpl. now rewrite So.
Qed.

Lemma options_settled (es : list (jsstring * jsstring))
  (acc : list option_el) :
  settled acc ->
  settled
    (fold_left (fun opts e => append_option (language_option e) opts) es acc).
Proof.
  revert acc. induction es as [|e es IH]; intros acc S; simpl; [exact S|].
  apply IH. right. now apply append_settled.
Qed.

Lemma find_deselected (l : list option_el) :
  find opt_selected (map (with_selected false) l) = None.
Proof. induction l; simpl; auto. Qed.

Lemma find_app_found (l r : list option_el) (o : option_el) :
  find opt_selected l = Some o -> find opt_selected (l ++ r) = Some o.
Proof.
  induction l as [|x l IH]; simpl; [discriminate|].
  destruct (opt_selected x); auto.
Qed.

Lemma find_app_none (l r : list option_el) :
  find opt_selected l = None ->
  find opt_selected (l ++ r) = find opt_selected r.
Proof.
  induction l as [|x l IH]; simpl; [reflexivity|].
  destruct (opt_selected x); [discriminate | auto].
Qed.

Lemma append_english (e : jsstring * jsstring) (l : list option_el) :
  fst e = utf16 "en" ->
  english_selected (append_option (language_option e) l).
Proof.
  intros E.
  assert (S : opt_selected (language_option e) = true).
  { unfold language_option. cbn [opt_selected]. now apply jsstring_eqb_eq. }
  rewrite (append_selected _ _ S). split.
  - unfold select_value. rewrite find_app_none by apply find_deselected.
    cbn [find]. rewrite S. exact E.
  - intros o Ho So. apply in_app_or in Ho. destruct Ho as [Ho | [<- | []]].
    + apply in_map_iff in Ho. destruct Ho as (x & <- & _). discriminate.
    + exact E.
Qed.

Lemma append_other (e : jsstring * jsstring) (l : list option_el) :
  fst e <> utf16 "en" -> settled l -> english_selected l ->
  english_selected (append_option (language_option e) l).
Proof.
  intros E S [V A].
  assert (U : opt_selected (language_option e) = false).
  { unfold language_option. cbn [opt_selected].
    destruct (jsstring_eqb (fst e) (utf16 "en")) eqn:B; [|reflexivity].
    apply jsstring_eqb_eq in B. contradiction. }
  destruct S as [-> | C]; [discriminate V|].
  rewrite (append_unselected _ _ U C). split.
  - unfold select_value in *.
    destruct (find opt_selected l) as [o|] eqn:F; [|discriminate V].
    now rewrite (find_app_found _ _ _ F).
  - intros o Ho So. apply in_app_or in Ho. destruct Ho as [Ho | [<- | []]].
    + now apply A.
    + congruence.
Qed.

Lemma options_english (es : list (jsstring * jsstring))
  (acc : list option_el) :
  settled acc ->
  english_selected acc \/ In (utf16 "en") (map fst es) ->
  english_selected
    (fold_left (fun opts e => append_option (language_option e) opts) es acc).
Proof.
  revert acc. induction es as [|e es IH]; intros acc S D; simpl.
  - destruct D as [D | []]. exact D.
  - apply IH; [right; now apply append_settled|].
    destruct (list_eq_dec N.eq_dec (fst e) (utf16 "en")) as [E | E].
    + left. now apply append_english.
    + destruct D as [D | [D | D]].
      * left. now apply append_other.
      * contradiction.
      * now right.
Qed.

Lemma languages_shown_selector (j : value num)
  (es : list (jsstring * value num)) (q : page) :
  tgtLang (languages_shown j es q) = options_of (labelled es)
  /\ trace (languages_shown j es q) = trace q
  /\ listeners (languages_shown j es q) = listeners q
  /\ timers (languages_shown j es q) = timers q.
Proof.
  unfold languages_shown. cbn zeta. destruct (names_convert es);
    [destruct (to_string (get j "total"))|]; repeat split.
Qed.

Lemma languages_shown_failed (j : value num)
  (es : list (jsstring * value num)) (q : page) :
  names_convert es = false ->
  languages_shown j es q
  = load_failed (set_tgtLang (options_of (labelled es)) q).
Proof. unfold languages_shown. now intros ->. Qed.

(** C4, as the code has it.  For every languages response that parses as
    JSON with a [languages] map, [loadLanguages] leaves in the target
    selector, whatever options it held before, exactly one option per
    entry of the map, in the order of the entries, with the code as value
    and the name, converted to a string, as label, up to the first entry
    whose name does not convert: when every name converts, and so when
    every name is a string, there is one option per entry.  The option
    with code ['en'], when one was made, is the selected one, and the
    selector reads ['en'].  At a name whose conversion throws the loop
    stops: the options made so far stay, the entries from there on get
    none, and the alert area reports ['Failed to load languages']. *)
Theorem languages_fill_selector (p q : page) (st : N) (j : value num)
  (es : list (jsstring * value num)) :
  get j "languages" = VObj es ->
  exists q',
    suspends_then loadLanguages p (log (Fetch (get_request api_langs)) p)
      (ok st j) q q'
    /\ map opt_pair (tgtLang q') = labelled es
    /\ (names_convert es = true ->
        map opt_value (tgtLang q') = map fst es)
    /\ (forall names : list (jsstring * jsstring),
          es = map (fun cn => (fst cn, VStr (snd cn))) names ->
          map opt_pair (tgtLang q') = names)
    /\ (In (utf16 "en") (map fst (labelled es)) ->
        select_value (tgtLang q') = utf16 "en"
        /\ forall o, In o (tgtLang q') -> opt_selected o = true ->
                     opt_value o = utf16 "en")
    /\ (labelled es <> [] -> count_selected (tgtLang q') = 1%nat)
    /\ (names_convert es = false ->
        alert_texts q' = [utf16 "Failed to load languages"]
        /\ exists rest, rest <> []
                        /\ map fst es = map opt_value (tgtLang q') ++ rest).
Proof.
  intros L.
  destruct (loadLanguages_sends p) as (k & Ek & _ & _ & Kok).
  specialize (Kok st j q).
  rewrite (defined_get j "languages") in Kok by (rewrite L; discriminate).
  rewrite L in Kok. cbn [entries] in Kok.
  eexists. split; [exists k; split; [exact Ek | exact Kok]|].
  destruct (languages_shown_selector j es q) as (-> & _).
  assert (V : map opt_value (options_of (labelled es))
              = map fst (labelled es)).
  { rewrite <- (options_of_pairs (labelled es)) at 2.
    rewrite map_map. reflexivity. }
  split; [apply options_of_pairs|]. split; [|split; [|split; [|split]]].
  - intros C. rewrite V. now apply labelled_codes.
  - intros names ->. rewrite options_of_pairs. apply labelled_strings.
  - intros I. apply options_english; [now left | now right].
  - intros N.
    destruct (options_settled (labelled es) [] (or_introl eq_refl))
      as [E | C].
    + apply (f_equal (map opt_pair)) in E.
      unfold options_of in *. rewrite options_from_pairs in E.
      cbn [map app] in E. contradiction.
    + exact C.
  - intros F. rewrite (languages_shown_failed j es q F).
    split; [reflexivity|].
    destruct (labelled_prefix es) as (rest & E & R).
    exists rest. split; [now apply R|].
    cbn [tgtLang load_failed alert_shown set_alerts set_tgtLang].
    now rewrite V.
Qed.

(** ** One request per invocation, every failure shown *)

Lemma reply_cases (r : reply num) :
  r = Rejected \/ (exists st j, r = ok st j) \/ (exists st, r = garbled st).
Proof.
  destruct r as [|[st [j|]]]; [now left | right; left | right; right].
  - now exists st, j.
  - now exists st.
Qed.

Lemma fetches_log_fetch (rq : request) (p : page) :
  fetches (log (Fetch rq) p) = fetches p ++ [Fetch rq].
Proof. unfold fetches, log. cbn [trace set_trace]. now rewrite filter_app. Qed.

Lemma fetches_log_play (src : jsstring) (p : page) :
  fetches (log (Play src) p) = fetches p.
Proof.
  unfold fetches, log. cbn [trace set_trace]. rewrite filter_app.
  apply app_nil_r.
Qed.

Lemma checkHealth_one_request : one_request checkHealth.
Proof.
  intros p. right.
  destruct (checkHealth_sends p) as (k & Ek & Krej & Kgar & Kok).
  exists (log (Fetch (get_request api_health)) p), k, (get_request api_health).
  split; [exact Ek|]. split; [rewrite fetches_log_fetch; reflexivity|].
  intros r q. destruct (reply_cases r) as [-> | [(st & j & ->) | (st & ->)]].
  - rewrite Krej. eexists; split; reflexivity.
  - rewrite (Kok st j q).
    destruct (prop j (utf16 "status")) as [s|];
      [destruct (strict_eq_str s (utf16 "healthy"))|];
      eexists; split; reflexivity.
  - rewrite (Kgar st q). eexists; split; reflexivity.
Qed.

Lemma loadLanguages_one_request : one_request loadLanguages.
Proof.
  intros p. right.
  destruct (loadLanguages_sends p) as (k & Ek & Krej & Kgar & Kok).
  exists (log (Fetch (get_request api_langs)) p), k, (get_request api_langs).
  split; [exact Ek|]. split; [rewrite fetches_log_fetch; reflexivity|].
  intros r q. destruct (reply_cases r) as [-> | [(st & j & ->) | (st & ->)]].
  - rewrite Krej. eexists; split; reflexivity.
  - rewrite (Kok st j q).
    destruct (prop j (utf16 "languages")) as [l|];
      [destruct (entries l)|]; (eexists; split; [reflexivity|]);
      outcome; reflexivity.
  - rewrite (Kgar st q). eexists; split; reflexivity.
Qed.

Lemma translate_one_request : one_request translate.
Proof.
  intros p. destruct (str_truthy (trim (srcText p))) eqn:Ht.
  - right. destruct (translate_sends p Ht) as (k & Ek & Krej & Kgar & Kok).
    eexists _, k, (translate_request p).
    split; [exact Ek|]. split; [rewrite fetches_log_fetch; reflexivity|].
    intros r q. destruct (reply_cases r) as [-> | [(st & j & ->) | (st & ->)]].
    + rewrite Krej. eexists; split; reflexivity.
    + rewrite (Kok st j q).
      destruct (prop j (utf16 "success")) as [s|];
        [destruct (truthy s)|]; (eexists; split; [reflexivity|]);
        outcome; reflexivity.
    + rewrite (Kgar st q). eexists; split; reflexivity.
  - left. apply str_truthy_false in Ht. rewrite (translate_blank p Ht).
    eexists; split; reflexivity.
Qed.

Lemma stt_one_request : one_request stt.
Proof.
  intros p. destruct (audioInput p) as [|f fs] eqn:Ef.
  - left. rewrite (stt_no_file p Ef). eexists; split; reflexivity.
  - right. destruct (stt_sends p f fs Ef) as (k & Ek & Krej & Kgar & Kok).
    eexists _, k, (stt_request f).
    split; [exact Ek|]. split; [rewrite fetches_log_fetch; reflexivity|].
    intros r q. destruct (reply_cases r) as [-> | [(st & j & ->) | (st & ->)]].
    + rewrite Krej. eexists; split; reflexivity.
    + rewrite (Kok st j q).
      destruct (prop j (utf16 "success")) as [s|];
        [destruct (truthy s)|]; (eexists; split; [reflexivity|]);
        outcome; reflexivity.
    + rewrite (Kgar st q). eexists; split; reflexivity.
Qed.

Lemma tts_one_request : one_request tts.
Proof.
  intros p.
  destruct (str_truthy (trim (str_or (ttsText p) (srcText p)))) eqn:Ht.
  - right. destruct (tts_sends p Ht) as (k & Ek & Krej & Kgar & Kok).
    eexists _, k, (tts_request p).
    split; [exact Ek|]. split; [rewrite fetches_log_fetch; reflexivity|].
    intros r q. destruct (reply_cases r) as [-> | [(st & j & ->) | (st & ->)]].
    + rewrite Krej. eexists; split; reflexivity.
    + rewrite (Kok st j q).
      destruct (prop j (utf16 "success")) as [s|];
        [destruct (truthy (js_and s (get j "audio_url")))|];
        eexists; (split; [reflexivity|]); outcome; try reflexivity.
      cbn [status_shown set_timers set_statusBar fetches trace].
      apply (fetches_log_play _ (set_ttsAudio _ q)).
    + rewrite (Kgar st q). eexists; split; reflexivity.
  - left. apply str_truthy_false in Ht. rewrite (tts_blank p Ht).
    eexists; split; reflexivity.
Qed.

Lemma success_false_read (j : value num) :
  get j "success" = VBool false ->
  prop j (utf16 "success") = Some (VBool false).
Proof.
  intros Hs. rewrite <- Hs. apply defined_get. rewrite Hs. discriminate.
Qed.

Lemma translate_failed (p q : page) (st : N) (j : value num) :
  str_truthy (trim (srcText p)) = true ->
  get j "success" = VBool false ->
  exists a,
    suspends_then translate p a (ok st j) q
      (failure_shown j "Translation failed" "فشل في الترجمة" q).
Proof.
  intros Ht Hs. destruct (translate_sends p Ht) as (k & Ek & _ & _ & Kok).
  specialize (Kok st j q). rewrite (success_false_read j Hs) in Kok.
  eexists. exists k. split; [exact Ek | exact Kok].
Qed.

Lemma stt_failed (p q : page) (f : file) (fs : list file) (st : N)
  (j : value num) :
  audioInput p = f :: fs ->
  get j "success" = VBool false ->
  exists a,
    suspends_then stt p a (ok st j) q
      (failure_shown j "STT failed" "فشل في تحويل الصوت" q).
Proof.
  intros Hf Hs. destruct (stt_sends p f fs Hf) as (k & Ek & _ & _ & Kok).
  specialize (Kok st j q). rewrite (success_false_read j Hs) in Kok.
  eexists. exists k. split; [exact Ek | exact Kok].
Qed.

Lemma tts_failed (p q : page) (st : N) (j : value num) :
  str_truthy (trim (str_or (ttsText p) (srcText p))) = true ->
  get j "success" = VBool false ->
  exists a,
    suspends_then tts p a (ok st j) q
      (failure_shown j "TTS failed" "فشل في تحويل النص إلى صوت" q).
Proof.
  intros Ht Hs. destruct (tts_sends p Ht) as (k & Ek & _ & _ & Kok).
  specialize (Kok st j q). rewrite (success_false_read j Hs) in Kok.
  eexists. exists k. split; [exact Ek | exact Kok].
Qed.

Lemma shown_message_empty (fallback : string) (e : value num) :
  utf16 fallback <> [] -> shown_message fallback e = [] ->
  truthy e = true /\ to_string e = Some [].
Proof.
  intros F E. destruct (shown_error_cases e fallback) as (_ & C2 & C3 & C4).
  destruct (truthy e) eqn:T.
  - split; [reflexivity|]. destruct (to_string e) as [t|] eqn:S.
    + rewrite (C3 t eq_refl eq_refl) in E. now subst.
    + rewrite (C4 eq_refl) in E. vm_compute in E. discriminate E.
  - rewrite (C2 eq_refl) in E. contradiction.
Qed.

(** C6, as the code has it.  Each of the five request handlers sends at
    most one request per invocation and, whatever the outcome, returns
    without throwing or sending another.  A request that fails, because the
    fetch is rejected or the body is not JSON, is reported in a visible
    string: the badge reads ['Server unreachable'] with class
    ['badge alert'] for the health check, the alert area holds
    ['Failed to load languages'] for the language list and
    ['Network error'] for the three others.  A response with [success]
    equal to [false] makes [translate], [stt] and [tts] put one message in
    the alert area, [error || fallback] converted to a string or
    ['Network error'] when that conversion throws; the message is empty
    only when [error] is truthy and converts to the empty string, as an
    empty array does.  [checkHealth] and [loadLanguages] do not read
    [success]: such a response gives the badge its [status] calls for and
    no alert, and the language list its [languages] call for. *)
Theorem failures_shown_once (p1 p2 p3 p4 p5 q : page) (f : file)
  (fs : list file) (r : reply num) :
  str_truthy (trim (srcText p3)) = true ->
  audioInput p4 = f :: fs ->
  str_truthy (trim (str_or (ttsText p5) (srcText p5))) = true ->
  no_json r ->
  let alert text := [{| div_class := utf16 "alert"; div_text := text |}] in
  (one_request checkHealth /\ one_request loadLanguages
   /\ one_request translate /\ one_request stt /\ one_request tts)
  /\ (exists a q',
        suspends_then checkHealth p1 a r q q'
        /\ healthEl q' = {| badge_text := utf16 "Server unreachable";
                            badge_class := utf16 "badge alert" |})
  /\ (exists a q',
        suspends_then loadLanguages p2 a r q q'
        /\ alerts q' = alert (utf16 "Failed to load languages"))
  /\ (exists a q',
        suspends_then translate p3 a r q q'
        /\ alerts q' = alert (utf16 "Network error"))
  /\ (exists a q',
        suspends_then stt p4 a r q q'
        /\ alerts q' = alert (utf16 "Network error"))
  /\ (exists a q',
        suspends_then tts p5 a r q q'
        /\ alerts q' = alert (utf16 "Network error"))
  /\ (forall st j,
        get j "success" = VBool false ->
        (exists a q',
           suspends_then translate p3 a (ok st j) q q'
           /\ alerts q'
              = alert (shown_message "Translation failed" (get j "error")))
        /\ (exists a q',
              suspends_then stt p4 a (ok st j) q q'
              /\ alerts q'
                 = alert (shown_message "STT failed" (get j "error")))
        /\ (exists a q',
              suspends_then tts p5 a (ok st j) q q'
              /\ alerts q'
                 = alert (shown_message "TTS failed" (get j "error")))
        /\ (exists a,
              suspends_then checkHealth p1 a (ok st j) q
                (if strict_eq_str (get j "status") (utf16 "healthy")
                 then badge_shown (utf16 "Server ✓") (utf16 "badge") q
                 else badge_shown (utf16 "Server issue")
                        (utf16 "badge alert") q))
        /\ (exists a,
              suspends_then loadLanguages p2 a (ok st j) q
                match entries (get j "languages") with
                | Some es => languages_shown j es q
                | None => load_failed (set_tgtLang [] q)
                end))
  /\ (forall fallback error,
        utf16 fallback <> [] ->
        (shown_message fallback error = [] ->
         truthy error = true /\ to_string error = Some [])
        /\ (truthy error = false ->
            shown_message fallback error = utf16 fallback)
        /\ (forall s, error = VStr s -> s <> [] ->
              shown_message fallback error = s)
        /\ (to_string error = None ->
            shown_message fallback error = utf16 "Network error")).
Proof.
  intros H3 H4 H5 Hr alert.
  split.
  { repeat split; [apply checkHealth_one_request
                  | apply loadLanguages_one_request
                  | apply translate_one_request | apply stt_one_request
                  | apply tts_one_request]. }
  destruct (checkHealth_sends p1) as (k1 & E1 & R1 & G1 & O1).
  destruct (loadLanguages_sends p2) as (k2 & E2 & R2 & G2 & O2).
  destruct (translate_sends p3 H3) as (k3 & E3 & R3 & G3 & _).
  destruct (stt_sends p4 f fs H4) as (k4 & E4 & R4 & G4 & _).
  destruct (tts_sends p5 H5) as (k5 & E5 & R5 & G5 & _).
  split; [|split; [|split; [|split; [|split; [|split]]]]].
  - eexists _, _. split; [exists k1; split; [exact E1|]|].
    + destruct Hr as [-> | [st ->]]; [apply R1 | apply G1].
    + reflexivity.
  - eexists _, _. split; [exists k2; split; [exact E2|]|].
    + destruct Hr as [-> | [st ->]]; [apply R2 | apply G2].
    + reflexivity.
  - eexists _, _. split; [exists k3; split; [exact E3|]|].
    + destruct Hr as [-> | [st ->]]; [apply R3 | apply G3].
    + reflexivity.
  - eexists _, _. split; [exists k4; split; [exact E4|]|].
    + destruct Hr as [-> | [st ->]]; [apply R4 | apply G4].
    + reflexivity.
  - eexists _, _. split; [exists k5; split; [exact E5|]|].
    + destruct Hr as [-> | [st ->]]; [apply R5 | apply G5].
    + reflexivity.
  - intros st j Hs. pose proof (success_false_read j Hs) as Ps.
    split; [|split; [|split; [|split]]].
    + destruct (translate_failed p3 q st j H3 Hs) as [a S].
      eexists _, _. split; [exact S|]. apply failure_quiet.
    + destruct (stt_failed p4 q f fs st j H4 Hs) as [a S].
      eexists _, _. split; [exact S|]. apply failure_quiet.
    + destruct (tts_failed p5 q st j H5 Hs) as [a S].
      eexists _, _. split; [exact S|]. apply failure_quiet.
    + specialize (O1 st j q).
      rewrite (get_after_read j _ _ "status" Ps) in O1.
      eexists. exists k1. split; [exact E1|]. rewrite O1.
      destruct (strict_eq_str (get j "status") (utf16 "healthy"));
        reflexivity.
    + specialize (O2 st j q).
      rewrite (get_after_read j _ _ "languages" Ps) in O2.
      eexists. exists k2. split; [exact E2|]. rewrite O2.
      destruct (entries (get j "languages")); reflexivity.
  - intros fallback error F.
    destruct (shown_error_cases error fallback) as (C1 & C2 & _ & C4).
    split; [now apply shown_message_empty|]. split; [exact C2|].
    split; [exact C1 | exact C4].
Qed.

(** ** Tasks that keep a relation *)

Section Keeps.
Variable R : page -> page -> Prop.
Hypothesis R_refl : forall p, R p p.
Hypothesis R_trans : forall p q r, R p q -> R q r -> R p r.

Lemma keeps_from {A} (p0 p : page) (s : step num A) :
  R p0 p -> keeps R p s -> keeps R p0 s.
Proof.
  intros Rp K. destruct K as [p a p' Rp' | p p' k Rp' Kk].
  - apply keeps_ret. eauto.
  - apply keeps_wait; eauto.
Qed.

Lemma keeps_bind {A B} (p0 : page) (s : step num A) (f : A -> M B) :
  keeps R p0 s -> (forall a q, keeps R q (f a q)) ->
  keeps R p0 (bind_step s f).
Proof.
  intros K F. induction K as [p0 a p Rp | p0 p k Rp Kk IH]; cbn.
  - apply (keeps_from p0 p); auto.
  - apply keeps_wait; auto.
Qed.

Lemma keeps_seq {A B} (m : M A) (f : A -> M B) :
  (forall p, keeps R p (m p)) -> (forall a q, keeps R q (f a q)) ->
  forall p, keeps R p (bind m f p).
Proof. intros Km Kf p. unfold bind. now apply keeps_bind. Qed.

Lemma settle_keeps (p : page) (s : step num unit)
  (ks : list (reply num -> page -> step num unit)) :
  keeps R p s -> Forall (quiet R) ks ->
  R p (dom (settle_task s ks)) /\ calm R (settle_task s ks).
Proof.
  intros K Q. destruct K as [p a p' Rp | p p' k Rp Kk]; cbn.
  - split; assumption.
  - split; [assumption|]. unfold calm. cbn.
    apply Forall_app. split; [assumption|]. constructor; [exact Kk|].
    constructor.
Qed.

Lemma run_task_keeps (m : M unit) (w : world num) :
  (forall p, keeps R p (m p)) -> calm R w ->
  R (dom w) (dom (run_task m w)) /\ calm R (run_task m w).
Proof. intros Km C. unfold run_task. now apply settle_keeps. Qed.

Lemma Forall_remove_nth {A} (P : A -> Prop) (i : nat) (l : list A) :
  Forall P l -> Forall P (remove_nth i l).
Proof.
  intros F. revert i. induction F as [|x l Px F IH]; intros [|i]; simpl;
    auto.
Qed.

Hypothesis listeners_keep : forall l p, keeps R p (listener_body l p).
Hypothesis timers_keep : forall a p, keeps R p (fire a p).
Hypothesis input_keeps :
  forall p, (forall s, R p (set_srcText s p))
            /\ (forall s, R p (set_outText s p))
            /\ (forall s, R p (set_ttsText s p))
            /\ (forall i, R p (set_srcLang (pick i (srcLang p)) p))
            /\ (forall i, R p (set_tgtLang (pick i (tgtLang p)) p))
            /\ (forall fs, R p (set_audioInput fs p))
            /\ (forall ts, R p (set_timers ts p)).

(** Every event keeps [R] and leaves only quiet handlers suspended. *)
Lemma react_keeps (w : world num) (e : event num) :
  calm R w -> R (dom w) (dom (react w e)) /\ calm R (react w e).
Proof.
  intros C. destruct (input_keeps (dom w)) as (I1 & I2 & I3 & I4 & I5 & I6 & I7).
  destruct e as [b | i r | i | [] s | i | i | fs]; cbn [react];
    try (split; [cbn; auto | exact C]).
  - generalize (clicked b (listeners (dom w))). intros ls.
    assert (G : forall w', R (dom w) (dom w') -> calm R w' ->
                  R (dom w) (dom (fold_left
                      (fun w0 l => run_task (listener_body l) w0) ls w'))
                  /\ calm R (fold_left
                      (fun w0 l => run_task (listener_body l) w0) ls w')).
    { induction ls as [|l ls IH]; intros w' Rw Cw; cbn; [now split|].
      destruct (run_task_keeps (listener_body l) w' (listeners_keep l) Cw)
        as [R1 C1].
      apply IH; eauto. }
    apply G; auto.
  - destruct (nth_error (inflight w) i) as [k|] eqn:E; [|now split].
    apply settle_keeps.
    + apply nth_error_In in E. unfold calm in C.
      rewrite Forall_forall in C. apply (C k E).
    + now apply Forall_remove_nth.
  - destruct (nth_error (timers (dom w)) i) as [t|] eqn:E; [|now split].
    destruct (run_task_keeps (fire (timer_action_of t))
                (on_page (fun p => set_timers (remove_nth i (timers p)) p) w)
                (timers_keep _) C) as [R1 C1].
    split; [|exact C1]. cbn in R1. eauto.
Qed.

Lemma events_keep (evs : list (event num)) (w : world num) :
  calm R w ->
  R (dom w) (dom (fold_left react evs w))
  /\ calm R (fold_left react evs w).
Proof.
  revert w. induction evs as [|e evs IH]; intros w C; cbn; [now split|].
  destruct (react_keeps w e C) as [R1 C1].
  destruct (IH _ C1) as [R2 C2]. split; eauto.
Qed.

End Keeps.

Lemma keeps_weaken {A} (R R' : page -> page -> Prop) (p : page)
  (s : step num A) :
  (forall a b, R a b -> R' a b) -> keeps R p s -> keeps R' p s.
Proof.
  intros W K. induction K as [p0 a p Rp | p0 p k Rp Kk IH].
  - apply keeps_ret. auto.
  - apply keeps_wait; auto.
Qed.

(** ** What click listeners and timers do *)

Lemma after_click_trans (p q r : page) :
  after_click p q -> after_click q r -> after_click p r.
Proof.
  intros (T1 & x1 & E1 & F1) (T2 & x2 & E2 & F2). split; [congruence|].
  exists (x1 ++ x2). split.
  - rewrite E2, E1, app_assoc. reflexivity.
  - apply Forall_app. split; [assumption|]. now rewrite <- T1.
Qed.

Lemma after_click_same (p q : page) :
  tgtLang q = tgtLang p -> trace q = trace p -> after_click p q.
Proof.
  intros T E. split; [exact T|]. exists [].
  split; [now rewrite app_nil_r | constructor].
Qed.

Lemma after_click_log (p q : page) (e : effect) :
  tgtLang q = tgtLang p -> trace q = trace p ++ [e] ->
  click_effect (tgtLang p) e -> after_click p q.
Proof.
  intros T E C. split; [exact T|]. exists [e].
  split; [exact E | now constructor].
Qed.

Ltac same_page := apply keeps_ret, after_click_same; reflexivity.

Lemma translate_after_click (p : page) : keeps after_click p (translate p).
Proof.
  destruct (str_truthy (trim (srcText p))) eqn:Ht.
  - destruct (translate_sends p Ht) as (k & Ek & Krej & Kgar & Kok).
    rewrite Ek. apply keeps_wait.
    + eapply after_click_log; [reflexivity | reflexivity|].
      left. now exists p.
    + intros r q.
      destruct (reply_cases r) as [-> | [(st & j & ->) | (st & ->)]].
      * rewrite Krej. same_page.
      * rewrite Kok. destruct (prop j (utf16 "success")) as [s|];
          [destruct (truthy s)|]; outcome; same_page.
      * rewrite Kgar. same_page.
  - apply str_truthy_false in Ht. rewrite (translate_blank p Ht). same_page.
Qed.

Lemma stt_after_click (p : page) : keeps after_click p (stt p).
Proof.
  destruct (audioInput p) as [|f fs] eqn:Ef.
  - rewrite (stt_no_file p Ef). same_page.
  - destruct (stt_sends p f fs Ef) as (k & Ek & Krej & Kgar & Kok).
    rewrite Ek. apply keeps_wait.
    + eapply after_click_log; [reflexivity | reflexivity|].
      right. right. now exists f.
    + intros r q.
      destruct (reply_cases r) as [-> | [(st & j & ->) | (st & ->)]].
      * rewrite Krej. same_page.
      * rewrite Kok. destruct (prop j (utf16 "success")) as [s|];
          [destruct (truthy s)|]; outcome; same_page.
      * rewrite Kgar. same_page.
Qed.

Lemma tts_after_click (p : page) : keeps after_click p (tts p).
Proof.
  destruct (str_truthy (trim (str_or (ttsText p) (srcText p)))) eqn:Ht.
  - destruct (tts_sends p Ht) as (k & Ek & Krej & Kgar & Kok).
    rewrite Ek. apply keeps_wait.
    + eapply after_click_log; [reflexivity | reflexivity|].
      right. left. now exists p.
    + intros r q.
      destruct (reply_cases r) as [-> | [(st & j & ->) | (st & ->)]].
      * rewrite Krej. same_page.
      * rewrite Kok. destruct (prop j (utf16 "success")) as [s|];
          [destruct (truthy (js_and s (get j "audio_url")))|];
          outcome; try same_page.
        apply keeps_ret.
        eapply after_click_log; [reflexivity | reflexivity | exact I].
      * rewrite Kgar. same_page.
  - apply str_truthy_false in Ht. rewrite (tts_blank p Ht). same_page.
Qed.

Lemma copyTranslation_after_click (p : page) :
  keeps after_click p (@copyTranslation num p).
Proof.
  unfold copyTranslation. run_handler.
  destruct (str_truthy (trim (outText p))); cbn [negb]; run_handler.
  - destruct (clipboardApi p); run_handler.
    + apply keeps_wait.
      * eapply after_click_log; [reflexivity | reflexivity | exact I].
      * intros [|resp] q; run_handler.
        -- apply keeps_ret.
           eapply after_click_log; [reflexivity | reflexivity | exact I].
        -- same_page.
    + apply keeps_ret.
      eapply after_click_log; [reflexivity | reflexivity | exact I].
  - same_page.
Qed.

Lemma downloadTranslation_after_click (p : page) :
  keeps after_click p (@downloadTranslation num p).
Proof.
  unfold downloadTranslation. run_handler.
  destruct (str_truthy (trim (outText p))); cbn [negb]; run_handler.
  - apply keeps_ret.
    eapply after_click_log; [reflexivity | reflexivity | exact I].
  - same_page.
Qed.

Lemma listeners_after_click (l : listener) (p : page) :
  keeps after_click p (listener_body l p).
Proof.
  destruct l; cbn [listener_body].
  - apply translate_after_click.
  - rewrite swap_run. same_page.
  - unfold clearAll. run_handler. same_page.
  - apply stt_after_click.
  - apply tts_after_click.
  - apply copyTranslation_after_click.
  - apply downloadTranslation_after_click.
Qed.

Lemma timers_after_click (a : timer_action) (p : page) :
  keeps after_click p (fire a p).
Proof. destruct a; unfold fire; run_handler; same_page. Qed.

(** ** Requests to the health endpoint *)

Lemma click_effect_not_health (opts : list option_el) (e : effect) :
  click_effect opts e -> is_fetch_of api_health e = false.
Proof.
  destruct e as [rq| | | |]; try reflexivity.
  intros [(p & _ & ->) | [(p & _ & ->) | (f & ->)]]; reflexivity.
Qed.

Lemma after_click_same_health (p q : page) :
  after_click p q -> same_requests_to api_health p q.
Proof.
  intros (_ & extra & E & F). unfold same_requests_to, fetches_of.
  rewrite E, filter_app, length_app.
  assert (N0 : filter (is_fetch_of api_health) extra = []).
  { clear E. induction F as [|e extra Ce F IH]; cbn [filter]; [reflexivity|].
    rewrite (click_effect_not_health _ _ Ce). exact IH. }
  rewrite N0. simpl. lia.
Qed.

Lemma fetches_of_log (url : jsstring) (e : effect) (p : page) :
  is_fetch_of url e = false -> fetches_of url (log e p) = fetches_of url p.
Proof.
  intros N0. unfold fetches_of, log. cbn [trace set_trace].
  rewrite filter_app. cbn [filter]. rewrite N0, app_nil_r. reflexivity.
Qed.

Lemma same_health_refl (p : page) : same_requests_to api_health p p.
Proof. reflexivity. Qed.

Lemma same_health_trans (p q r : page) :
  same_requests_to api_health p q -> same_requests_to api_health q r ->
  same_requests_to api_health p r.
Proof. unfold same_requests_to. congruence. Qed.

Lemma addEventListener_after_click (b : button) (l : listener) (p : page) :
  keeps after_click p (@addEventListener num b l p).
Proof.
  unfold addEventListener. run_handler.
  destruct (registered b l (listeners p)); same_page.
Qed.

(** The load handler: the health request first; once it settles, whatever
    the outcome, the languages request; once that settles, the rest, which
    neither sends a request nor touches the target selector. *)
Lemma onLoad_sends (p : page) :
  exists (rest : M unit) k,
    (forall q, keeps after_click q (rest q))
    /\ onLoad p = Wait (log (Fetch (get_request api_health)) p) k
    /\ forall r q, exists b c k2,
         k r q = Wait (log (Fetch (get_request api_langs))
                         (badge_shown b c q)) k2
         /\ (forall r2 q2, keeps (same_requests_to api_health) q2 (k2 r2 q2))
         /\ (forall st j q2 es,
               get j "languages" = VObj es ->
               k2 (ok st j) q2 = rest (languages_shown j es q2)).
Proof.
  unfold onLoad.
  match goal with
  | |- context [bind loadLanguages (fun _ => ?t)] => set (rest := t)
  end.
  assert (Krest : forall q, keeps after_click q (rest q)).
  { subst rest.
    repeat (apply keeps_seq;
            [apply after_click_trans
            | intros; first [apply addEventListener_after_click
                            | run_handler; same_page]
            | intros _]).
    intros q. run_handler. same_page. }
  destruct (checkHealth_sends p) as (kh & Eh & Hrej & Hgar & Hok).
  exists rest. eexists. split; [exact Krest|].
  split; [unfold bind at 1; rewrite Eh; reflexivity|].
  intros r q. cbn beta.
  assert (B : exists b c, kh r q = Ret tt (badge_shown b c q)).
  { destruct (reply_cases r) as [-> | [(st & j & ->) | (st & ->)]].
    - rewrite Hrej. eauto.
    - rewrite Hok. destruct (prop j (utf16 "status")) as [s|];
        [destruct (strict_eq_str s (utf16 "healthy"))|]; eauto.
    - rewrite Hgar. eauto. }
  destruct B as (b & c & ->). cbn [bind_step].
  destruct (loadLanguages_sends (badge_shown b c q))
    as (kl & El & Lrej & Lgar & Lok).
  exists b, c. eexists. split; [unfold bind at 1; rewrite El; reflexivity|].
  split.
  - intros r2 q2. cbn beta.
    apply keeps_bind; [apply same_health_trans| |].
    + destruct (reply_cases r2) as [-> | [(st & j & ->) | (st & ->)]].
      * rewrite Lrej. now apply keeps_ret.
      * rewrite Lok. destruct (prop j (utf16 "languages")) as [l|];
          [destruct (entries l)|]; outcome; now apply keeps_ret.
      * rewrite Lgar. now apply keeps_ret.
    + intros _ q3. eapply keeps_weaken; [|apply Krest].
      apply after_click_same_health.
  - intros st j q2 es L. cbn beta. rewrite Lok.
    rewrite (defined_get j "languages") by (rewrite L; discriminate).
    rewrite L. reflexivity.
Qed.

Lemma health_inputs (p : page) :
  (forall s, same_requests_to api_health p (set_srcText s p))
  /\ (forall s, same_requests_to api_health p (set_outText s p))
  /\ (forall s, same_requests_to api_health p (set_ttsText s p))
  /\ (forall i, same_requests_to api_health p
                  (set_srcLang (pick i (srcLang p)) p))
  /\ (forall i, same_requests_to api_health p
                  (set_tgtLang (pick i (tgtLang p)) p))
  /\ (forall fs, same_requests_to api_health p (set_audioInput fs p))
  /\ (forall ts, same_requests_to api_health p (set_timers ts p)).
Proof. repeat split. Qed.

(** The page as [DOMContentLoaded] leaves it: one request sent, to the
    health endpoint, and the load handler waiting for it. *)
Lemma load_world (p : page) :
  exists k,
    load p = {| dom := log (Fetch (get_request api_health)) (parsed p);
                inflight := [k] |}
    /\ onLoad (parsed p)
       = Wait (log (Fetch (get_request api_health)) (parsed p)) k.
Proof.
  destruct (onLoad_sends (parsed p)) as (rest & k & _ & E & _).
  exists k. split; [|exact E]. unfold load, run_task.
  cbn [dom inflight]. rewrite E. reflexivity.
Qed.

(** C7, as the code has it.  Over the whole life of a loaded page, whatever
    the user does, whatever timers fire and however the requests settle,
    the request to [/api/health] is sent exactly once, by the load handler:
    the endpoint is checked at page load and never polled. *)
Theorem health_checked_once (p : page) (evs : list (event num)) :
  fetches_of api_health (dom (lifetime p evs)) = 1%nat.
Proof.
  unfold lifetime.
  destruct (load_world p) as (k & El & Eo).
  destruct (onLoad_sends (parsed p)) as (rest & k' & Krest & E & K).
  rewrite Eo in E. injection E as <-.
  assert (C : calm (same_requests_to api_health) (load p)).
  { rewrite El. constructor; [|constructor].
    intros r q. destruct (K r q) as (b & c & k2 & -> & K2 & _).
    apply keeps_wait; [|exact K2].
    unfold same_requests_to. now rewrite fetches_of_log. }
  destruct (events_keep (same_requests_to api_health) same_health_refl
              same_health_trans
              (fun l q => keeps_weaken _ _ _ _ after_click_same_health
                            (listeners_after_click l q))
              (fun a q => keeps_weaken _ _ _ _ after_click_same_health
                            (timers_after_click a q))
              health_inputs evs (load p) C) as [S _].
  rewrite S, El. reflexivity.
Qed.

(** ** Language codes in requests *)










(** While the load handler is at work, clicks find no listener, no timer
    is pending, and what the user types or picks sends nothing. *)
Lemma loading_inputs (k : reply num -> page -> step num unit)
  (t : list effect) (evs : list (event num)) (w : world num) :
  Forall not_settlement evs -> loading k t w ->
  loading k t (fold_left react evs w).
Proof.
  intros F. revert w. induction F as [|e evs Ne F IH]; intros w Lw; cbn;
    [exact Lw|].
  apply IH. destruct Lw as (I & Ls & Ts & Tr).
  destruct e as [b | i r | i | [] s | i | i | fs]; cbn [react];
    try (repeat split; assumption).
  - rewrite Ls. cbn. repeat split; assumption.
  - destruct Ne.
  - rewrite Ts. destruct i; cbn; repeat split; assumption.
Qed.



(** * Further properties of the script *)

(** ** Clearing and swapping *)

Lemma clearAll_run (p : page) : @clearAll num p = Ret tt (cleared p).
Proof. unfold clearAll. run_handler. reflexivity. Qed.

(** X1. [clearAll] empties the two main text fields, the alert area and the
    language line and touches neither the text-to-speech field, nor the
    selectors, nor the requests sent; a click on the translate button right
    after it only prompts for text and sends nothing. *)
Theorem clear_then_translate (p : page) :
  returns (@clearAll num) p (cleared p)
  /\ srcText (cleared p) = [] /\ outText (cleared p) = []
  /\ alerts (cleared p) = [] /\ langInfo (cleared p) = []
  /\ ttsText (cleared p) = ttsText p
  /\ srcLang (cleared p) = srcLang p /\ tgtLang (cleared p) = tgtLang p
  /\ audioInput (cleared p) = audioInput p
  /\ ttsAudio (cleared p) = ttsAudio p /\ healthEl (cleared p) = healthEl p
  /\ trace (cleared p) = trace p
  /\ returns translate (cleared p)
       (alert_shown (utf16 "Please enter text to translate") (utf16 "alert")
          (cleared p)).
Proof.
  split; [apply clearAll_run|]. repeat (split; [reflexivity|]).
  apply translate_blank. reflexivity.
Qed.

(** X2. [clearAll] does not clear the text-to-speech field: when that field
    holds text, a click on the speak button after clearing still sends a
    request, for that text. *)
Theorem clear_keeps_tts_text (p : page) :
  str_truthy (trim (ttsText p)) = true ->
  exists a k,
    tts (cleared p) = Wait (log (Fetch (tts_request (cleared p))) a) k
    /\ request_text (tts_request (cleared p)) = [trim (ttsText p)].
Proof.
  intros Ht.
  assert (E : str_or (ttsText (cleared p)) (srcText (cleared p)) = ttsText p).
  { cbn. destruct (ttsText p); [discriminate Ht | reflexivity]. }
  assert (Ht' : str_truthy (trim (str_or (ttsText (cleared p))
                                    (srcText (cleared p)))) = true)
    by (rewrite E; exact Ht).
  destruct (tts_sends (cleared p) Ht') as (k & Ek & _).
  eexists _, k. split; [exact Ek|].
  unfold request_text, tts_request. rewrite E. reflexivity.
Qed.

(** X3. [swap] exchanges the texts and not the languages: a click on the
    translate button after a swap sends the former translation, trimmed,
    with the source and target codes the selectors had before the swap. *)
Theorem swap_then_translate (p : page) :
  str_truthy (trim (outText p)) = true ->
  returns swap p (swapped p)
  /\ exists a k,
       translate (swapped p)
       = Wait (log (Fetch (translate_request (swapped p))) a) k
       /\ request_text (translate_request (swapped p)) = [trim (outText p)]
       /\ submitted_codes (translate_request (swapped p))
          = submitted_codes (translate_request p).
Proof.
  intros Ht. split; [apply swap_run|].
  destruct (translate_sends (swapped p) Ht) as (k & Ek & _).
  eexists _, k. split; [exact Ek|]. split; reflexivity.
Qed.

(** ** Copying and saving the translation *)

Lemma copyTranslation_blank (p : page) :
  trim (outText p) = [] ->
  @copyTranslation num p
  = Ret tt (status_shown (utf16 "لا يوجد نص للنسخ") (utf16 "error") 3000 p).
Proof.
  intros E. unfold copyTranslation. run_handler. rewrite E. reflexivity.
Qed.

Lemma copyTranslation_writes (p : page) :
  str_truthy (trim (outText p)) = true ->
  clipboardApi p = true ->
  exists k,
    @copyTranslation num p
    = Wait (log (ClipboardWrite (trim (outText p))) p) k
    /\ (forall resp q,
          k (Fulfilled resp) q
          = Ret tt (status_shown (utf16 "تم نسخ الترجمة بنجاح! 📋")
                      (utf16 "success") 3000 q))
    /\ (forall q,
          k Rejected q
          = Ret tt (status_shown (utf16 "تم نسخ الترجمة بنجاح! 📋")
                      (utf16 "success") 3000 (log (ExecCopy (outText q)) q))).
Proof.
  intros Ht Hc. unfold copyTranslation. run_handler. rewrite Ht. cbn [negb].
  run_handler. rewrite Hc. run_handler.
  eexists. split; [reflexivity|]. split; reflexivity.
Qed.

Lemma copyTranslation_falls_back (p : page) :
  str_truthy (trim (outText p)) = true ->
  clipboardApi p = false ->
  @copyTranslation num p
  = Ret tt (status_shown (utf16 "تم نسخ الترجمة بنجاح! 📋")
              (utf16 "success") 3000 (log (ExecCopy (outText p)) p)).
Proof.
  intros Ht Hc. unfold copyTranslation. run_handler. rewrite Ht. cbn [negb].
  run_handler. rewrite Hc. run_handler. reflexivity.
Qed.

(** X4. With no translation to copy (the field is empty or white space),
    [copyTranslation] writes nothing to the clipboard and shows an error
    status.  Otherwise, where the browser has a clipboard interface, it
    hands the trimmed translation to the clipboard and, whether the
    clipboard accepts it or not, ends with the same success status; when
    the clipboard refuses, it falls back on selecting the field and copying
    its whole content, untrimmed, as it is by then.  Where the browser has
    no clipboard interface nothing is handed over or awaited: the fallback
    runs at once, within the click, and the same success status is shown.
    It never sends a request. *)
Theorem copy_translation_outcomes (p1 p2 p3 q : page) :
  forallb is_js_space (outText p1) = true ->
  str_truthy (trim (outText p2)) = true -> clipboardApi p2 = true ->
  str_truthy (trim (outText p3)) = true -> clipboardApi p3 = false ->
  (exists p', returns (@copyTranslation num) p1 p'
              /\ trace p' = trace p1 /\ status_is "error" p')
  /\ (exists k,
        @copyTranslation num p2
        = Wait (log (ClipboardWrite (trim (outText p2))) p2) k
        /\ (forall resp, exists q',
              k (Fulfilled resp) q = Ret tt q'
              /\ trace q' = trace q /\ status_is "success" q')
        /\ (exists q',
              k Rejected q = Ret tt q'
              /\ trace q' = trace q ++ [ExecCopy (outText q)]
              /\ status_is "success" q'))
  /\ (exists p', returns (@copyTranslation num) p3 p'
                 /\ trace p' = trace p3 ++ [ExecCopy (outText p3)]
                 /\ status_is "success" p').
Proof.
  intros B Ht2 Hc2 Ht3 Hc3. split; [|split].
  - apply trim_blank in B. unfold returns.
    rewrite (copyTranslation_blank p1 B).
    eexists. split; [reflexivity|]. repeat split.
  - destruct (copyTranslation_writes p2 Ht2 Hc2) as (k & Ek & Kok & Krej).
    exists k. split; [exact Ek|]. split.
    + intros resp. rewrite Kok. eexists. split; [reflexivity|]. repeat split.
    + rewrite Krej. eexists. split; [reflexivity|]. repeat split.
  - unfold returns. rewrite (copyTranslation_falls_back p3 Ht3 Hc3).
    eexists. split; [reflexivity|]. repeat split.
Qed.

Lemma downloadTranslation_run (p : page) :
  @downloadTranslation num p
  = if str_truthy (trim (outText p))
    then Ret tt (status_shown (utf16 "تم تحميل الترجمة كملف نصي! 💾")
                   (utf16 "success") 3000 (log (SaveFile (trim (outText p))) p))
    else Ret tt (status_shown (utf16 "لا يوجد نص للتحميل") (utf16 "error")
                   3000 p).
Proof.
  unfold downloadTranslation. run_handler.
  destruct (str_truthy (trim (outText p))); reflexivity.
Qed.

(** X5. [downloadTranslation] saves a file exactly when there is a
    translation: with an empty or white-space field nothing is saved and an
    error status is shown; otherwise the trimmed translation is saved, once,
    and a success status shown.  Nothing else is asked of the outside and
    nothing is awaited. *)
Theorem download_translation_outcomes (p : page) :
  exists p',
    returns (@downloadTranslation num) p p'
    /\ ((forallb is_js_space (outText p) = true
         /\ trace p' = trace p /\ status_is "error" p')
        \/ (forallb is_js_space (outText p) = false
            /\ trace p' = trace p ++ [SaveFile (trim (outText p))]
            /\ status_is "success" p')).
Proof.
  unfold returns. rewrite downloadTranslation_run.
  destruct (str_truthy (trim (outText p))) eqn:Ht; eexists;
    (split; [reflexivity|]).
  - right. split; [|repeat split].
    destruct (forallb is_js_space (outText p)) eqn:B; [|reflexivity].
    apply trim_blank in B. rewrite B in Ht. discriminate.
  - left. split; [|repeat split].
    apply trim_blank. now apply str_truthy_false.
Qed.

(** ** Speech to text *)

(** X6. With no file chosen, [stt] sends nothing and prompts for one.  With
    files chosen it posts the first one only, as the part ['audio'] of a
    form; on a response with a truthy [success] whose [text] converts to a
    string it puts that text in the source-text field, which reads it back
    with the line breaks CR and CR LF as LF, leaves the translated text
    alone and reports ['Transcribed successfully'] in an alert of class
    ['success'].  When the conversion of [text] throws, the source text is
    left as it was and ['Network error'] is reported. *)
Theorem stt_outcomes (p1 p2 q : page) (f : file) (fs : list file) (st : N)
  (j : value num) :
  audioInput p1 = [] ->
  audioInput p2 = f :: fs ->
  truthy (get j "success") = true ->
  returns stt p1
    (alert_shown (utf16 "Select an audio file") (utf16 "alert") p1)
  /\ exists a q',
       suspends_then stt p2
         (log (Fetch (post_form api_stt [(utf16 "audio", f)])) a)
         (ok st j) q q'
       /\ outText q' = outText q
       /\ (forall t,
             field_value_string (get j "text") = Some t ->
             srcText q' = normalize_newlines t
             /\ alerts q' = [{| div_class := utf16 "success";
                                div_text := utf16 "Transcribed successfully" |}]
             /\ status_is "success" q')
       /\ (forall t, get j "text" = VStr t -> ~ In 13 t -> srcText q' = t)
       /\ (field_value_string (get j "text") = None ->
           q' = network_error q).
Proof.
  intros E1 E2 Hs. split; [apply stt_no_file, E1|].
  destruct (stt_sends p2 f fs E2) as (k & Ek & _ & _ & Kok).
  specialize (Kok st j q). rewrite (truthy_get _ _ Hs), Hs in Kok.
  eexists _, _. split; [exists k; split; [exact Ek | exact Kok]|].
  unfold transcription_shown, textarea_value.
  split; [|split; [|split]].
  - destruct (field_value_string (get j "text")); reflexivity.
  - intros t ->. cbn. repeat split.
  - intros t -> N. cbn. now apply normalize_newlines_id.
  - intros ->. reflexivity.
Qed.

(** X7. A dictated text can be translated at once: after a successful
    transcription whose [text] is a string that, with its line breaks as
    the field reads them back, does not trim to nothing, a click on the
    translate button sends that text, trimmed. *)
Theorem dictation_then_translate (p q : page) (f : file) (fs : list file)
  (st : N) (j : value num) (t : jsstring) :
  audioInput p = f :: fs ->
  truthy (get j "success") = true ->
  get j "text" = VStr t ->
  str_truthy (trim (normalize_newlines t)) = true ->
  exists a q' b k,
    suspends_then stt p a (ok st j) q q'
    /\ translate q' = Wait (log (Fetch (translate_request q')) b) k
    /\ request_text (translate_request q') = [trim (normalize_newlines t)].
Proof.
  intros E Hs Ht Hn.
  destruct (stt_sends p f fs E) as (k & Ek & _ & _ & Kok).
  specialize (Kok st j q). rewrite (truthy_get _ _ Hs), Hs in Kok.
  unfold transcription_shown, textarea_value in Kok. rewrite Ht in Kok.
  cbn [field_value_string to_string option_map] in Kok.
  match type of Kok with _ = Ret tt ?x => set (q' := x) in * end.
  assert (S : srcText q' = normalize_newlines t) by reflexivity.
  assert (Hn' : str_truthy (trim (srcText q')) = true) by (now rewrite S).
  destruct (translate_sends q' Hn') as (k' & Ek' & _).
  eexists _, q', _, k'. split; [exists k; split; [exact Ek | exact Kok]|].
  split; [exact Ek'|]. unfold request_text, translate_request.
  rewrite S. reflexivity.
Qed.

(** ** The text that is spoken *)

(** X8. [tts] speaks the text-to-speech field when it is not empty, whatever
    the source text; it speaks the source text only when the text-to-speech
    field is empty.  A text-to-speech field that holds white space only
    hides the source text: nothing is sent and the prompt is shown. *)
Theorem tts_text_choice (p1 p2 p3 : page) :
  str_truthy (trim (ttsText p1)) = true ->
  ttsText p2 = [] -> str_truthy (trim (srcText p2)) = true ->
  ttsText p3 <> [] -> forallb is_js_space (ttsText p3) = true ->
  (exists a k, tts p1 = Wait (log (Fetch (tts_request p1)) a) k
               /\ request_text (tts_request p1) = [trim (ttsText p1)])
  /\ (exists a k, tts p2 = Wait (log (Fetch (tts_request p2)) a) k
                  /\ request_text (tts_request p2) = [trim (srcText p2)])
  /\ returns tts p3
       (alert_shown (utf16 "Enter text for TTS") (utf16 "alert") p3).
Proof.
  intros H1 E2 H2 N3 B3.
  assert (O1 : str_or (ttsText p1) (srcText p1) = ttsText p1).
  { destruct (ttsText p1); [discriminate H1 | reflexivity]. }
  assert (O2 : str_or (ttsText p2) (srcText p2) = srcText p2)
    by (now rewrite E2).
  assert (O3 : str_or (ttsText p3) (srcText p3) = ttsText p3).
  { destruct (ttsText p3); [congruence | reflexivity]. }
  split; [|split].
  - rewrite <- O1 in H1. destruct (tts_sends p1 H1) as (k & Ek & _).
    eexists _, k. split; [exact Ek|].
    unfold request_text, tts_request. rewrite O1. reflexivity.
  - rewrite <- O2 in H2. destruct (tts_sends p2 H2) as (k & Ek & _).
    eexists _, k. split; [exact Ek|].
    unfold request_text, tts_request. rewrite O2. reflexivity.
  - apply tts_blank. rewrite O3. now apply trim_blank.
Qed.

(** ** The status bar *)

(** X9. A request handler never leaves its progress message standing: a
    click that sends a request shows a status of kind ['info'], and however
    the request settles the handler ends on a status of kind ['success'] or
    ['error'], shown. *)
Theorem request_status_resolved (p1 p2 p3 q : page) (f : file)
  (fs : list file) (r : reply num) :
  str_truthy (trim (srcText p1)) = true ->
  audioInput p2 = f :: fs ->
  str_truthy (trim (str_or (ttsText p3) (srcText p3))) = true ->
  let resolved (m : M unit) (p : page) :=
    exists a q',
      suspends_then m p a r q q' /\ status_is "info" a
      /\ (status_is "success" q' \/ status_is "error" q') in
  resolved translate p1 /\ resolved stt p2 /\ resolved tts p3.
Proof.
  intros H1 H2 H3 resolved. subst resolved. cbn beta.
  destruct (translate_sends p1 H1) as (k1 & E1 & R1 & G1 & O1).
  destruct (stt_sends p2 f fs H2) as (k2 & E2 & R2 & G2 & O2).
  destruct (tts_sends p3 H3) as (k3 & E3 & R3 & G3 & O3).
  assert (V : forall (m : M unit) p a k q',
            m p = Wait a k -> k r q = Ret tt q' -> status_is "info" a ->
            status_is "success" q' \/ status_is "error" q' ->
            exists a q', suspends_then m p a r q q' /\ status_is "info" a
                         /\ (status_is "success" q' \/ status_is "error" q')).
  { intros m p a k q' Em Ek Sa Sq. exists a, q'.
    split; [exists k; split; assumption|]. split; assumption. }
  destruct (reply_cases r) as [-> | [(st & j & ->) | (st & ->)]].
  - split; [|split].
    + eapply (V _ _ _ _ _ E1 (R1 q)); [|right]; split; reflexivity.
    + eapply (V _ _ _ _ _ E2 (R2 q)); [|right]; split; reflexivity.
    + eapply (V _ _ _ _ _ E3 (R3 q)); [|right]; split; reflexivity.
  - specialize (O1 st j q). specialize (O2 st j q). specialize (O3 st j q).
    destruct (prop j (utf16 "success")) as [s|].
    + split; [|split].
      * destruct (truthy s);
          (eapply (V _ _ _ _ _ E1 O1); [split; reflexivity|]);
          outcome;
          first [left; split; reflexivity | right; split; reflexivity].
      * destruct (truthy s);
          (eapply (V _ _ _ _ _ E2 O2); [split; reflexivity|]);
          outcome;
          first [left; split; reflexivity | right; split; reflexivity].
      * destruct (truthy (js_and s (get j "audio_url")));
          (eapply (V _ _ _ _ _ E3 O3); [split; reflexivity|]);
          outcome;
          first [left; split; reflexivity | right; split; reflexivity].
    + split; [|split].
      * eapply (V _ _ _ _ _ E1 O1); [|right]; split; reflexivity.
      * eapply (V _ _ _ _ _ E2 O2); [|right]; split; reflexivity.
      * eapply (V _ _ _ _ _ E3 O3); [|right]; split; reflexivity.
  - split; [|split].
    + eapply (V _ _ _ _ _ E1 (G1 st q)); [|right]; split; reflexivity.
    + eapply (V _ _ _ _ _ E2 (G2 st q)); [|right]; split; reflexivity.
    + eapply (V _ _ _ _ _ E3 (G3 st q)); [|right]; split; reflexivity.
Qed.

Lemma nth_error_after {A} (l : list A) (a : A) (r : list A) :
  nth_error (l ++ a :: r) (List.length l) = Some a.
Proof. induction l; simpl; auto. Qed.

Lemma remove_nth_after {A} (l : list A) (a : A) (r : list A) :
  remove_nth (List.length l) (l ++ a :: r) = l ++ r.
Proof. induction l; simpl; [reflexivity | now f_equal]. Qed.

(** X10. [showStatus] does not cancel the timer of the message it replaces.
    When a second message is shown before the timer of the first has
    fired, that timer hides the second message: it is then gone after the
    delay of the first, counted from the first, and its own timer is still
    pending. *)
Theorem earlier_timer_hides_later_status (p : page)
  (m1 t1 m2 t2 : jsstring) (d1 d2 : N)
  (waiting : list (reply num -> page -> step num unit)) :
  exists p2,
    returns (bind (@showStatus num m1 t1 d1)
               (fun _ => @showStatus num m2 t2 d2)) p p2
    /\ status_text (statusBar p2) = m2
    /\ status_display (statusBar p2) = utf16 "block"
    /\ timers p2
       = timers p ++ [{| timer_delay := d1; timer_action_of := HideStatus |};
                      {| timer_delay := d2; timer_action_of := HideStatus |}]
    /\ let w := react {| dom := p2; inflight := waiting |}
                      (TimerFires (List.length (timers p))) in
       status_text (statusBar (dom w)) = m2
       /\ status_display (statusBar (dom w)) = utf16 "none"
       /\ timers (dom w)
          = timers p ++ [{| timer_delay := d2;
                            timer_action_of := HideStatus |}].
Proof.
  eexists. split; [unfold returns; run_handler; reflexivity|].
  split; [reflexivity|]. split; [reflexivity|].
  split; [cbn; now rewrite <- app_assoc|].
  cbn [react dom set_timers set_statusBar timers].
  rewrite <- app_assoc. cbn [app].
  rewrite nth_error_after. unfold run_task, on_page.
  cbn [dom inflight timer_action_of]. unfold fire. run_handler.
  cbn [settle_task dom statusBar set_statusBar set_timers status_text
         status_display timers].
  rewrite remove_nth_after. repeat split.
Qed.

(** ** The language list *)

(** X11. When the language list cannot be fetched or its body is not JSON,
    [loadLanguages] reports it and leaves the target selector as it was.
    When the body is JSON but carries no [languages] (it is missing or
    [null]), the selector has already been emptied when the failure is
    reported: it then reads the empty string, and that is the target a
    translate request submits. *)
Theorem languages_failure_outcomes (p q : page) (r : reply num) (st : N)
  (j : value num) :
  no_json r ->
  entries (get j "languages") = None ->
  (exists a, suspends_then loadLanguages p a r q (load_failed q)
             /\ tgtLang (load_failed q) = tgtLang q)
  /\ exists a,
       suspends_then loadLanguages p a (ok st j) q
         (load_failed (set_tgtLang [] q))
       /\ select_value (tgtLang (load_failed (set_tgtLang [] q))) = []
       /\ code_fields [utf16 "target"]
            (translate_request (load_failed (set_tgtLang [] q))) = [[]].
Proof.
  intros Hr E.
  destruct (loadLanguages_sends p) as (k & Ek & Krej & Kgar & Kok).
  split.
  - eexists. split; [|reflexivity]. exists k. split; [exact Ek|].
    destruct Hr as [-> | [s ->]]; [apply Krej | apply Kgar].
  - eexists. split; [|split; reflexivity]. exists k. split; [exact Ek|].
    rewrite Kok. unfold get in E.
    destruct (prop j (utf16 "languages")) as [l|]; [|reflexivity].
    now rewrite E.
Qed.

Lemma options_without_english (es : list (jsstring * jsstring))
  (acc : list option_el) :
  ~ In (utf16 "en") (map fst es) -> count_selected acc = 1%nat ->
  fold_left (fun opts e => append_option (language_option e) opts) es acc
  = acc ++ map language_option es.
Proof.
  revert acc. induction es as [|e es IH]; intros acc N C; simpl.
  - now rewrite app_nil_r.
  - assert (U : opt_selected (language_option e) = false).
    { unfold language_option. cbn [opt_selected].
      destruct (jsstring_eqb (fst e) (utf16 "en")) eqn:B; [|reflexivity].
      apply jsstring_eqb_eq in B. exfalso. apply N. now left. }
    rewrite (append_unselected _ _ U C), IH.
    + now rewrite <- app_assoc.
    + intros I. apply N. now right.
    + rewrite count_selected_app, C. unfold count_selected.
      cbn [filter]. now rewrite U.
Qed.

(** X12. When none of the entries that get an option has the code ['en']
    (the entries of the map up to the first name, if any, whose conversion
    throws), nothing is preselected by the script and the drop-down settles
    on its first option: the selector reads the code of the first entry of
    the map, and no other option is selected. *)
Theorem first_language_without_english (p q : page) (st : N) (j : value num)
  (es : list (jsstring * value num)) (e : jsstring * jsstring)
  (others : list (jsstring * jsstring)) :
  get j "languages" = VObj es ->
  labelled es = e :: others ->
  ~ In (utf16 "en") (map fst (e :: others)) ->
  exists a q',
    suspends_then loadLanguages p a (ok st j) q q'
    /\ tgtLang q'
       = with_selected true (language_option e) :: map language_option others
    /\ select_value (tgtLang q') = fst e
    /\ count_selected (tgtLang q') = 1%nat.
Proof.
  intros L Lab N.
  destruct (loadLanguages_sends p) as (k & Ek & _ & _ & Kok).
  specialize (Kok st j q).
  rewrite (defined_get j "languages") in Kok by (rewrite L; discriminate).
  rewrite L in Kok. cbn [entries] in Kok.
  assert (U : opt_selected (language_option e) = false).
  { unfold language_option. cbn [opt_selected].
    destruct (jsstring_eqb (fst e) (utf16 "en")) eqn:B; [|reflexivity].
    apply jsstring_eqb_eq in B. exfalso. apply N. now left. }
  assert (O : options_of (e :: others)
              = with_selected true (language_option e)
                  :: map language_option others).
  { unfold options_of. cbn [fold_left].
    assert (F : append_option (language_option e) []
                = [with_selected true (language_option e)]).
    { unfold append_option, selectedness_setting.
      change ([] ++ [language_option e]) with [language_option e].
      unfold existsb. rewrite U. reflexivity. }
    rewrite F. rewrite options_without_english; [reflexivity| |reflexivity].
    intros I. apply N. now right. }
  eexists _, _. split; [exists k; split; [exact Ek | exact Kok]|].
  destruct (languages_shown_selector j es q) as (-> & _).
  rewrite Lab, O.
  split; [reflexivity|]. split; [reflexivity|].
  unfold count_selected. cbn [filter with_selected opt_selected List.length].
  f_equal.
  assert (Z0 : forall l : list (jsstring * jsstring),
                 ~ In (utf16 "en") (map fst l) ->
                 filter opt_selected (map language_option l) = []).
  { induction l as [|x l IH]; intros Nl; [reflexivity|]. cbn [map filter].
    destruct (jsstring_eqb (fst x) (utf16 "en")) eqn:B.
    - apply jsstring_eqb_eq in B. exfalso. apply Nl. now left.
    - cbn [language_option opt_selected]. rewrite B. apply IH.
      intros I. apply Nl. now right. }
  rewrite Z0; [reflexivity|]. intros I. apply N. now right.
Qed.

(** ** While the page loads *)

(** The load handler, step by step: the health request; when it settles,
    the languages request; when that settles, on a page with no listener
    yet, the seven listeners and the timer of the welcome message, whatever
    the two outcomes were. *)
Lemma onLoad_completes (p : page) :
  exists k,
    onLoad p = Wait (log (Fetch (get_request api_health)) p) k
    /\ forall r q, exists b c k2,
         k r q = Wait (log (Fetch (get_request api_langs))
                         (badge_shown b c q)) k2
         /\ forall r2 q2,
              listeners q2 = [] ->
              exists x,
                k2 r2 q2 = Ret tt (registered_page x)
                /\ listeners x = [] /\ timers x = timers q2
                /\ trace x = trace q2.
Proof.
  unfold onLoad.
  match goal with
  | |- context [bind loadLanguages (fun _ => ?t)] => set (rest := t)
  end.
  assert (Rest : forall x, listeners x = [] ->
                   rest x = Ret tt (registered_page x)).
  { intros [h s o sl tl li al ai tt0 ta sb tm ls tr cb]. cbn [listeners].
    intros ->. reflexivity. }
  destruct (checkHealth_sends p) as (kh & Eh & Hrej & Hgar & Hok).
  eexists. split; [unfold bind at 1; rewrite Eh; reflexivity|].
  intros r q. cbn beta.
  assert (B : exists b c, kh r q = Ret tt (badge_shown b c q)).
  { destruct (reply_cases r) as [-> | [(st & j & ->) | (st & ->)]].
    - rewrite Hrej. eauto.
    - rewrite Hok. destruct (prop j (utf16 "status")) as [s|];
        [destruct (strict_eq_str s (utf16 "healthy"))|]; eauto.
    - rewrite Hgar. eauto. }
  destruct B as (b & c & ->). cbn [bind_step].
  destruct (loadLanguages_sends (badge_shown b c q))
    as (kl & El & Lrej & Lgar & Lok).
  exists b, c. eexists. split; [unfold bind at 1; rewrite El; reflexivity|].
  intros r2 q2 L0. cbn beta.
  assert (X : exists x, kl r2 q2 = Ret tt x /\ listeners x = []
                        /\ timers x = timers q2 /\ trace x = trace q2).
  { destruct (reply_cases r2) as [-> | [(st & j & ->) | (st & ->)]].
    - rewrite Lrej. eexists. split; [reflexivity|]. now repeat split.
    - rewrite Lok. destruct (prop j (utf16 "languages")) as [l|];
        [destruct (entries l) as [es|]|];
        (eexists; split; [reflexivity|]);
        [destruct (languages_shown_selector j es q2) as (_ & T & Ls & Tm);
         rewrite T, Ls, Tm | |]; now repeat split.
    - rewrite Lgar. eexists. split; [reflexivity|]. now repeat split. }
  destruct X as (x & -> & Lx & Tx & Trx). cbn [bind_step].
  exists x. split; [now apply Rest|]. now repeat split.
Qed.

(** X13. The buttons are deaf until the page has loaded.  While the health
    request, and then the languages request, has not settled, no click
    listener is registered: whatever the user clicks, types or picks, the
    only requests sent are those two. *)
Theorem clicks_wait_for_load (p : page) (rh : reply num)
  (pre mid : list (event num)) :
  Forall not_settlement pre -> Forall not_settlement mid ->
  (listeners (dom (lifetime p pre)) = []
   /\ trace (dom (lifetime p pre)) = [Fetch (get_request api_health)])
  /\ (listeners (dom (lifetime p (pre ++ Settle 0 rh :: mid))) = []
      /\ trace (dom (lifetime p (pre ++ Settle 0 rh :: mid)))
         = [Fetch (get_request api_health); Fetch (get_request api_langs)]).
Proof.
  intros Fpre Fmid. unfold lifetime.
  rewrite fold_left_app. cbn [fold_left].
  destruct (load_world p) as (k & El & Eo).
  destruct (onLoad_completes (parsed p)) as (k' & E & K).
  rewrite Eo in E. injection E as <-.
  assert (L0 : loading k [Fetch (get_request api_health)] (load p)).
  { rewrite El. repeat split. }
  pose proof (loading_inputs _ _ pre _ Fpre L0) as (I1 & Ls1 & Ts1 & Tr1).
  split; [now split|].
  set (w1 := fold_left react pre (load p)) in *. clearbody w1.
  destruct (K rh (dom w1)) as (b & c & k2 & Ek & _).
  assert (L2 : loading k2 [Fetch (get_request api_health);
                           Fetch (get_request api_langs)]
                 (react w1 (Settle 0 rh))).
  { cbn [react]. rewrite I1. cbn [nth_error remove_nth]. rewrite Ek.
    unfold loading. cbn. rewrite Ls1, Ts1, Tr1. repeat split. }
  pose proof (loading_inputs _ _ mid _ Fmid L2) as (_ & Ls3 & _ & Tr3).
  now split.
Qed.

(** ** What the script leaves to the user *)

Lemma script_step_refl (p : page) : script_step p p.
Proof. unfold script_step. repeat split. now left. Qed.

Lemma script_step_trans (p q r : page) :
  script_step p q -> script_step q r -> script_step p r.
Proof.
  intros (T1 & S1 & A1 & L1) (T2 & S2 & A2 & L2).
  unfold script_step. repeat split; try congruence.
  destruct L2 as [E | B]; [|now right].
  destruct L1 as [E1 | B1]; [left; congruence | right; now rewrite E].
Qed.

Ltac step_kept :=
  apply keeps_ret; unfold click_step, script_step; cbn;
  repeat split; first [now left | right; cbn; lia].

Lemma click_step_trans (p q r : page) :
  click_step p q -> click_step q r -> click_step p r.
Proof.
  intros (S1 & B1 & L1) (S2 & B2 & L2). split; [|split; congruence].
  eapply script_step_trans; eassumption.
Qed.

Lemma translate_click_step (p : page) : keeps click_step p (translate p).
Proof.
  destruct (str_truthy (trim (srcText p))) eqn:Ht.
  - destruct (translate_sends p Ht) as (k & Ek & Krej & Kgar & Kok).
    rewrite Ek. apply keeps_wait.
    + unfold click_step, script_step. cbn. repeat split. now left.
    + intros r q.
      destruct (reply_cases r) as [-> | [(st & j & ->) | (st & ->)]].
      * rewrite Krej. step_kept.
      * rewrite Kok. destruct (prop j (utf16 "success")) as [s|];
          [destruct (truthy s)|]; outcome; step_kept.
      * rewrite Kgar. step_kept.
  - apply str_truthy_false in Ht. rewrite (translate_blank p Ht). step_kept.
Qed.

Lemma stt_click_step (p : page) : keeps click_step p (stt p).
Proof.
  destruct (audioInput p) as [|f fs] eqn:Ef.
  - rewrite (stt_no_file p Ef). step_kept.
  - destruct (stt_sends p f fs Ef) as (k & Ek & Krej & Kgar & Kok).
    rewrite Ek. apply keeps_wait.
    + unfold click_step, script_step. cbn. repeat split. now left.
    + intros r q.
      destruct (reply_cases r) as [-> | [(st & j & ->) | (st & ->)]].
      * rewrite Krej. step_kept.
      * rewrite Kok. destruct (prop j (utf16 "success")) as [s|];
          [destruct (truthy s)|]; outcome; step_kept.
      * rewrite Kgar. step_kept.
Qed.

Lemma tts_click_step (p : page) : keeps click_step p (tts p).
Proof.
  destruct (str_truthy (trim (str_or (ttsText p) (srcText p)))) eqn:Ht.
  - destruct (tts_sends p Ht) as (k & Ek & Krej & Kgar & Kok).
    rewrite Ek. apply keeps_wait.
    + unfold click_step, script_step. cbn. repeat split. now left.
    + intros r q.
      destruct (reply_cases r) as [-> | [(st & j & ->) | (st & ->)]].
      * rewrite Krej. step_kept.
      * rewrite Kok. destruct (prop j (utf16 "success")) as [s|];
          [destruct (truthy (js_and s (get j "audio_url")))|];
          outcome; step_kept.
      * rewrite Kgar. step_kept.
  - apply str_truthy_false in Ht. rewrite (tts_blank p Ht). step_kept.
Qed.

Lemma listeners_click_step (l : listener) (p : page) :
  keeps click_step p (listener_body l p).
Proof.
  destruct l; cbn [listener_body].
  - apply translate_click_step.
  - rewrite swap_run. step_kept.
  - rewrite clearAll_run. step_kept.
  - apply stt_click_step.
  - apply tts_click_step.
  - destruct (str_truthy (trim (outText p))) eqn:Ht.
    + destruct (clipboardApi p) eqn:Hc.
      * destruct (copyTranslation_writes p Ht Hc) as (k & -> & Kok & Krej).
        apply keeps_wait.
        -- unfold click_step, script_step. cbn. repeat split. now left.
        -- intros [|resp] q; [rewrite Krej | rewrite Kok]; step_kept.
      * rewrite (copyTranslation_falls_back p Ht Hc). step_kept.
    + apply str_truthy_false in Ht. rewrite (copyTranslation_blank p Ht).
      step_kept.
  - rewrite downloadTranslation_run.
    destruct (str_truthy (trim (outText p))); step_kept.
Qed.

Lemma timers_click_step (a : timer_action) (p : page) :
  keeps click_step p (fire a p).
Proof. destruct a; unfold fire; run_handler; step_kept. Qed.

Lemma click_is_script_step (p q : page) : click_step p q -> script_step p q.
Proof. now intros (S & _). Qed.

Lemma listeners_script_step (l : listener) (p : page) :
  keeps script_step p (listener_body l p).
Proof.
  eapply keeps_weaken; [apply click_is_script_step|].
  apply listeners_click_step.
Qed.

Lemma timers_script_step (a : timer_action) (p : page) :
  keeps script_step p (fire a p).
Proof.
  eapply keeps_weaken; [apply click_is_script_step|].
  apply timers_click_step.
Qed.

Ltac load_step_kept :=
  apply keeps_ret; unfold script_step; cbn;
  repeat split; first [now left | right; cbn; lia].

Lemma onLoad_script_step (p : page) : keeps script_step p (@onLoad num _ p).
Proof.
  unfold onLoad.
  apply keeps_seq; [apply script_step_trans | |intros _].
  { intros q. destruct (checkHealth_sends q) as (k & -> & Krej & Kgar & Kok).
    apply keeps_wait; [unfold script_step; cbn; repeat split; now left|].
    intros r q'.
    destruct (reply_cases r) as [-> | [(st & j & ->) | (st & ->)]].
    - rewrite Krej. load_step_kept.
    - rewrite Kok. destruct (prop j (utf16 "status")) as [s|];
        [destruct (strict_eq_str s (utf16 "healthy"))|]; load_step_kept.
    - rewrite Kgar. load_step_kept. }
  apply keeps_seq; [apply script_step_trans | |intros _].
  { intros q. destruct (loadLanguages_sends q) as (k & -> & Krej & Kgar & Kok).
    apply keeps_wait; [unfold script_step; cbn; repeat split; now left|].
    intros r q'.
    destruct (reply_cases r) as [-> | [(st & j & ->) | (st & ->)]].
    - rewrite Krej. load_step_kept.
    - rewrite Kok. destruct (prop j (utf16 "languages")) as [l|];
        [destruct (entries l)|]; outcome; load_step_kept.
    - rewrite Kgar. load_step_kept. }
  repeat (apply keeps_seq;
          [apply script_step_trans
          | intros q; unfold addEventListener; run_handler;
            try match goal with
                | |- context [registered ?b ?l ?ls] =>
                    destruct (registered b l ls)
                end; load_step_kept
          | intros _]).
  intros q. run_handler. load_step_kept.
Qed.

(** Clicks, settlements and timers are steps of the script. *)
Lemma script_event_step (w : world num) (e : event num) :
  calm script_step w ->
  match e with
  | Click _ | Settle _ _ | TimerFires _ =>
      script_step (dom w) (dom (react w e))
  | _ => alerts (dom (react w e)) = alerts (dom w)
  end
  /\ calm script_step (react w e).
Proof.
  intros C.
  destruct e as [b | i r | i | [] s | i | i | fs]; cbn [react];
    try (split; [reflexivity | exact C]).
  - generalize (clicked b (listeners (dom w))). intros ls.
    assert (G : forall w', script_step (dom w) (dom w') ->
                  calm script_step w' ->
                  script_step (dom w) (dom (fold_left
                      (fun w0 l => run_task (listener_body l) w0) ls w'))
                  /\ calm script_step (fold_left
                      (fun w0 l => run_task (listener_body l) w0) ls w')).
    { induction ls as [|l ls IH]; intros w' Rw Cw; cbn; [now split|].
      destruct (run_task_keeps script_step (listener_body l) w'
                  (listeners_script_step l) Cw) as [R1 C1].
      apply IH; [|exact C1]. eapply script_step_trans; eassumption. }
    apply G; [apply script_step_refl | exact C].
  - destruct (nth_error (inflight w) i) as [k|] eqn:E;
      [|split; [apply script_step_refl | exact C]].
    apply settle_keeps.
    + apply nth_error_In in E. unfold calm in C.
      rewrite Forall_forall in C. apply (C k E).
    + now apply Forall_remove_nth.
  - destruct (nth_error (timers (dom w)) i) as [t|] eqn:E;
      [|split; [apply script_step_refl | exact C]].
    destruct (run_task_keeps script_step (fire (timer_action_of t))
                (on_page (fun p => set_timers (remove_nth i (timers p)) p) w)
                (timers_script_step _) C) as [R1 C1].
    split; [exact R1 | exact C1].
Qed.

(** ** After the load *)

(** X14. Whatever the outcomes of the health and languages requests, even
    when both fail, the load handler goes on: once the second has settled
    the seven click listeners are registered, one per button, no handler is
    left suspended, the welcome message is due in 1000 ms, and the two
    requests are all that was sent.  From then on, whatever happens, the
    listeners stay those seven and the health badge stays as it is: the
    badge is never refreshed. *)
Theorem listeners_registered_after_load (p : page) (rh rl : reply num)
  (pre mid : list (event num)) :
  Forall not_settlement pre -> Forall not_settlement mid ->
  let w := lifetime p (pre ++ Settle 0 rh :: mid ++ [Settle 0 rl]) in
  listeners (dom w) = all_listeners
  /\ inflight w = []
  /\ timers (dom w) = [{| timer_delay := 1000; timer_action_of := Welcome |}]
  /\ trace (dom w)
     = [Fetch (get_request api_health); Fetch (get_request api_langs)]
  /\ forall evs,
       listeners (dom (fold_left react evs w)) = all_listeners
       /\ healthEl (dom (fold_left react evs w)) = healthEl (dom w).
Proof.
  intros Fpre Fmid w.
  assert (W : listeners (dom w) = all_listeners /\ inflight w = []
              /\ timers (dom w)
                 = [{| timer_delay := 1000; timer_action_of := Welcome |}]
              /\ trace (dom w) = [Fetch (get_request api_health);
                                  Fetch (get_request api_langs)]).
  { subst w. unfold lifetime.
    rewrite fold_left_app. cbn [fold_left].
    rewrite fold_left_app. cbn [fold_left].
    destruct (load_world p) as (k & El & Eo).
    destruct (onLoad_completes (parsed p)) as (k' & E & K).
    rewrite Eo in E. injection E as <-.
    assert (L0 : loading k [Fetch (get_request api_health)] (load p)).
    { rewrite El. repeat split. }
    pose proof (loading_inputs _ _ pre _ Fpre L0) as (I1 & Ls1 & Ts1 & Tr1).
    set (w1 := fold_left react pre (load p)) in *. clearbody w1.
    destruct (K rh (dom w1)) as (b & c & k2 & Ek & K2).
    assert (L2 : loading k2 [Fetch (get_request api_health);
                             Fetch (get_request api_langs)]
                   (react w1 (Settle 0 rh))).
    { cbn [react]. rewrite I1. cbn [nth_error remove_nth]. rewrite Ek.
      unfold loading. cbn. rewrite Ls1, Ts1, Tr1. repeat split. }
    pose proof (loading_inputs _ _ mid _ Fmid L2) as (I3 & Ls3 & Ts3 & Tr3).
    set (w3 := fold_left react mid (react w1 (Settle 0 rh))) in *.
    clearbody w3.
    cbn [react]. rewrite I3. cbn [nth_error remove_nth].
    destruct (K2 rl (dom w3) Ls3) as (x & -> & Lx & Tx & Trx).
    cbn. rewrite Tx, Ts3, Trx, Tr3. repeat split. }
  clearbody w. destruct W as (Lw & Iw & Tw & Trw).
  repeat (split; [assumption|]). intros evs.
  assert (C : calm same_badge_and_listeners w).
  { unfold calm. rewrite Iw. constructor. }
  assert (Weak : forall a b, click_step a b -> same_badge_and_listeners a b).
  { intros a b (_ & B & L). now split. }
  destruct (events_keep same_badge_and_listeners
              (fun q => conj eq_refl eq_refl)
              (fun a b c '(conj B1 L1) '(conj B2 L2) =>
                 conj (eq_trans B2 B1) (eq_trans L2 L1))
              (fun l q => keeps_weaken _ _ _ _ Weak (listeners_click_step l q))
              (fun a q => keeps_weaken _ _ _ _ Weak (timers_click_step a q))
              (fun q => ltac:(repeat split))
              evs w C) as [(B & L) _].
  split; congruence.
Qed.

Lemma load_calm (p : page) :
  script_step p (dom (load p)) /\ calm script_step (load p).
Proof.
  unfold load.
  destruct (run_task_keeps script_step onLoad
              {| dom := parsed p; inflight := [] |} onLoad_script_step
              (Forall_nil _)) as [R C].
  split; [exact R | exact C].
Qed.

(** X15. The text-to-speech field, the source selector and the chosen audio
    files belong to the user: at every moment of the life of the page they
    are what the user's own inputs, in order, made of them.  No handler, no
    timer and no response ever writes them. *)
Theorem user_fields_untouched (p : page) (evs : list (event num)) :
  ttsText (dom (lifetime p evs)) = ttsText (fold_left entered evs p)
  /\ srcLang (dom (lifetime p evs)) = srcLang (fold_left entered evs p)
  /\ audioInput (dom (lifetime p evs)) = audioInput (fold_left entered evs p).
Proof.
  unfold lifetime. destruct (load_calm p) as [(T & S & A & _) C].
  revert C T S A. generalize (load p) as w. revert p.
  induction evs as [|e evs IH]; intros p w C T S A; cbn [fold_left];
    [now repeat split|].
  destruct (script_event_step w e C) as [R C'].
  apply IH; [exact C'|..];
    destruct e as [b | i r | i | [] s | i | i | fs];
    try (destruct R as (T' & S' & A' & _); cbn [entered]; congruence);
    cbn; congruence.
Qed.

(** X16. The alert area never holds more than one message: if the document
    starts with at most one, then at every moment of the life of the page,
    whatever happens, it holds at most one. *)
Theorem one_alert_at_a_time (p : page) (evs : list (event num)) :
  (List.length (alerts p) <= 1)%nat ->
  (List.length (alerts (dom (lifetime p evs))) <= 1)%nat.
Proof.
  intros L. unfold lifetime. destruct (load_calm p) as [(_ & _ & _ & A) C].
  assert (L0 : (List.length (alerts (dom (load p))) <= 1)%nat).
  { destruct A as [-> | B]; assumption. }
  clear A L. revert C L0. generalize (load p) as w.
  induction evs as [|e evs IH]; intros w C L0; cbn [fold_left];
    [exact L0|].
  destruct (script_event_step w e C) as [R C'].
  apply IH; [exact C'|].
  destruct e as [b | i r | i | [] s | i | i | fs];
    try (destruct R as (_ & _ & _ & [-> | B]); assumption);
    rewrite R; exact L0.
Qed.

(** ** What a response leaves on display *)

(** X17. A translation or speech request that succeeds, its values
    converting to strings, does not clear the alert area, so an error
    reported earlier stays on display beside the new result; a successful
    translation leaves the source text as typed.  A translation that fails,
    by the network or by the server, leaves the previous translation and
    language line on display. *)
Theorem stale_results (p1 p2 q : page) (st : N) (jt js jf : value num)
  (r : reply num) (t s d url : jsstring) :
  str_truthy (trim (srcText p1)) = true ->
  str_truthy (trim (str_or (ttsText p2) (srcText p2))) = true ->
  truthy (get jt "success") = true ->
  field_value_string (get jt "translated_text") = Some t ->
  to_string (get jt "source_language") = Some s ->
  to_string (get jt "target_language") = Some d ->
  truthy (get js "success") = true ->
  truthy (get js "audio_url") = true ->
  url_string (get js "audio_url") = Some url ->
  get jf "success" = VBool false ->
  no_json r ->
  (exists a q', suspends_then translate p1 a (ok st jt) q q'
                /\ alerts q' = alerts q /\ srcText q' = srcText q)
  /\ (exists a q', suspends_then tts p2 a (ok st js) q q'
                   /\ alerts q' = alerts q)
  /\ (exists a q', suspends_then translate p1 a r q q'
                   /\ outText q' = outText q /\ langInfo q' = langInfo q)
  /\ (exists a q', suspends_then translate p1 a (ok st jf) q q'
                   /\ outText q' = outText q /\ langInfo q' = langInfo q).
Proof.
  intros H1 H2 Hs Ct Cs Cd Hs2 Hu Cu Hf Hr.
  destruct (translate_sends p1 H1) as (k1 & E1 & R1 & G1 & O1).
  destruct (tts_sends p2 H2) as (k2 & E2 & _ & _ & O2).
  split; [|split; [|split]].
  - specialize (O1 st jt q). rewrite (truthy_get _ _ Hs), Hs in O1.
    eexists _, _. split; [exists k1; split; [exact E1 | exact O1]|].
    unfold translation_shown, textarea_value. rewrite Ct, Cs, Cd.
    split; reflexivity.
  - specialize (O2 st js q). rewrite (truthy_get _ _ Hs2) in O2.
    unfold js_and in O2. rewrite Hs2, Hu in O2.
    eexists _, _. split; [exists k2; split; [exact E2 | exact O2]|].
    unfold speech_started. rewrite Cu. reflexivity.
  - eexists _, _. split; [exists k1; split; [exact E1|]|].
    + destruct Hr as [-> | [x ->]]; [apply R1 | apply G1].
    + split; reflexivity.
  - destruct (translate_failed p1 q st jf H1 Hf) as [a S].
    eexists _, _. split; [exact S|].
    destruct (failure_quiet jf "Translation failed" "فشل في الترجمة" q)
      as (_ & _ & O & L & _).
    now split.
Qed.

End Theory.

(** * The statements on the sample pages *)

(** C1, as written, fails on a translation whose text has no string
    conversion: the field is not set, the language line is not written and
    ['Network error'] is reported.  It fails as well on a text with a
    CR LF line break, which the field does not read back as sent. *)
Lemma translated_text_counterexample :
  (truthy (get mistranslated "success") = true
   /\ outText (invoke translate (fun _ => ok 200 mistranslated) hello_page)
      = []
   /\ langInfo (invoke translate (fun _ => ok 200 mistranslated) hello_page)
      <> utf16 "Detected: en → fr"
   /\ alert_texts
        (invoke translate (fun _ => ok 200 mistranslated) hello_page)
      = [utf16 "Network error"])
  /\ (truthy (get translated_lines "success") = true
      /\ get translated_lines "translated_text" = VStr two_lines
      /\ outText
           (invoke translate (fun _ => ok 200 translated_lines) hello_page)
         <> two_lines).
Proof.
  split; [split; [reflexivity|]; split; [reflexivity|]; split|].
  - vm_compute. discriminate.
  - reflexivity.
  - split; [reflexivity|]. split; [reflexivity|]. vm_compute. discriminate.
Qed.

(** C1 as amended, on the sample translation: ["bonjour"] is shown with
    the line ['Detected: en → fr']. *)
Lemma translate_success_witness :
  str_truthy (trim (srcText hello_page)) = true
  /\ truthy (get translated "success") = true
  /\ exists a q',
       suspends_then translate hello_page a (ok 200 translated) blank_page q'
       /\ outText q' = utf16 "bonjour"
       /\ langInfo q' = utf16 "Detected: en → fr".
Proof.
  split; [reflexivity|]. split; [reflexivity|].
  destruct (translate_success hello_page blank_page 200 translated
              eq_refl eq_refl) as (q' & S & C & _).
  destruct (C (utf16 "bonjour") (utf16 "en") (utf16 "fr") eq_refl eq_refl
              eq_refl) as (O & L & _).
  eexists _, q'. split; [exact S|]. split; [exact O | exact L].
Defined.

(** C2 on the blank page and on a page with nothing but spaces. *)
Lemma empty_text_prompts_witness :
  forallb is_js_space (srcText (set_srcText (utf16 "   ") blank_page)) = true
  /\ forallb is_js_space (str_or (ttsText blank_page) (srcText blank_page))
     = true
  /\ returns translate (set_srcText (utf16 "   ") blank_page)
       (set_alerts [{| div_class := utf16 "alert";
                       div_text := utf16 "Please enter text to translate" |}]
          (set_srcText (utf16 "   ") blank_page))
  /\ returns (@tts Z _) blank_page
       (set_alerts [{| div_class := utf16 "alert";
                       div_text := utf16 "Enter text for TTS" |}] blank_page).
Proof.
  split; [reflexivity|]. split; [reflexivity|].
  destruct (@empty_text_prompts Z _ (set_srcText (utf16 "   ") blank_page)
              blank_page eq_refl eq_refl) as ((T & _) & (S & _)).
  split; [exact T | exact S].
Defined.

(** C3, as written, fails on a failure whose [error] is an object: the
    alert reads ['[object Object]'], not the fallback. *)
Lemma error_alert_counterexample :
  get refused "success" = VBool false
  /\ alert_texts (invoke translate (fun _ => ok 200 refused) hello_page)
     = [utf16 "[object Object]"]
  /\ alert_texts (invoke translate (fun _ => ok 200 refused) hello_page)
     <> [error_or_default (utf16 "Translation failed") (get refused "error")].
Proof.
  split; [reflexivity|]. split; [reflexivity|]. vm_compute. discriminate.
Qed.

(** C3 as amended, on a failure with a message. *)
Lemma server_failure_shown_witness :
  str_truthy (trim (srcText hello_page)) = true
  /\ audioInput audio_page = [clip]
  /\ get quota_exceeded "success" = VBool false
  /\ exists a q',
       suspends_then translate hello_page a (ok 500 quota_exceeded)
         blank_page q'
       /\ alert_texts q' = [utf16 "Quota exceeded"].
Proof.
  split; [reflexivity|]. split; [reflexivity|]. split; [reflexivity|].
  destruct (server_failure_shown hello_page audio_page hello_page blank_page
              clip [] 500 quota_exceeded eq_refl eq_refl eq_refl eq_refl)
    as ((a & q' & S & T) & _).
  exists a, q'. split; [exact S | exact T].
Defined.

(** C4, as written, fails on a map with a name that has no string
    conversion: the loop stops at that entry, the selector holds the one
    option made before it, the entry ['en'] that follows gets none, and the
    failure is reported. *)
Lemma language_names_counterexample :
  get unnamed_language_body "languages" = VObj unnamed_language
  /\ map opt_value
       (tgtLang (invoke loadLanguages (fun _ => ok 200 unnamed_language_body)
                   blank_page))
     = [utf16 "fr"]
  /\ map opt_value
       (tgtLang (invoke loadLanguages (fun _ => ok 200 unnamed_language_body)
                   blank_page))
     <> map fst unnamed_language
  /\ In (utf16 "en") (map fst unnamed_language)
  /\ select_value
       (tgtLang (invoke loadLanguages (fun _ => ok 200 unnamed_language_body)
                   blank_page))
     <> utf16 "en"
  /\ alert_texts
       (invoke loadLanguages (fun _ => ok 200 unnamed_language_body)
          blank_page)
     = [utf16 "Failed to load languages"].
Proof.
  split; [reflexivity|]. split; [reflexivity|].
  split; [vm_compute; discriminate|].
  split; [right; right; left; reflexivity|].
  split; [vm_compute; discriminate | reflexivity].
Qed.

(** C4 as amended, on the map [{en: "English", fr: "French"}]. *)
Lemma languages_fill_selector_witness :
  get two_languages "languages" = VObj english_french
  /\ exists q',
       suspends_then loadLanguages blank_page
         (log (Fetch (get_request api_langs)) blank_page)
         (ok 200 two_languages) hello_page q'
       /\ map opt_pair (tgtLang q')
          = [(utf16 "en", utf16 "English"); (utf16 "fr", utf16 "French")]
       /\ select_value (tgtLang q') = utf16 "en"
       /\ count_selected (tgtLang q') = 1%nat.
Proof.
  split; [reflexivity|].
  destruct (languages_fill_selector blank_page hello_page 200 two_languages
              english_french eq_refl) as (q' & S & _ & _ & P & E & C & _).
  exists q'. split; [exact S|]. split; [|split].
  - apply P. reflexivity.
  - apply E. left. reflexivity.
  - apply C. discriminate.
Defined.

(** C6, as written, fails on a failure whose [error] is an empty array:
    the alert area holds a message with no text.  It fails as well on a
    health response with [success] equal to [false] and a healthy
    [status]: the badge reads ['Server ✓'] and no alert is shown. *)
Lemma silent_failure_counterexample :
  (get silent_failure "success" = VBool false
   /\ alert_texts
        (invoke translate (fun _ => ok 200 silent_failure) hello_page)
      = [[]])
  /\ (get healthy_failure "success" = VBool false
      /\ healthEl
           (invoke checkHealth (fun _ => ok 200 healthy_failure) blank_page)
         = {| badge_text := utf16 "Server ✓"; badge_class := utf16 "badge" |}
      /\ alerts
           (invoke checkHealth (fun _ => ok 200 healthy_failure) blank_page)
         = []).
Proof. repeat split. Qed.

(** C6 as amended, on a rejected fetch. *)
Lemma failures_shown_once_witness :
  str_truthy (trim (srcText hello_page)) = true
  /\ audioInput audio_page = [clip]
  /\ @no_json Z Rejected
  /\ one_request translate
  /\ exists a q',
       suspends_then translate hello_page a Rejected blank_page q'
       /\ alert_texts q' = [utf16 "Network error"].
Proof.
  split; [reflexivity|]. split; [reflexivity|]. split; [now left|].
  destruct (failures_shown_once blank_page blank_page hello_page audio_page
              hello_page blank_page clip [] Rejected eq_refl eq_refl eq_refl
              (or_introl eq_refl))
    as ((_ & _ & O & _) & _ & _ & (a & q' & S & A) & _).
  split; [exact O|]. exists a, q'. split; [exact S|].
  unfold alert_texts. rewrite A. reflexivity.
Defined.

(** C7, as written, fails on the sample visit: after the load, a
    translation, a swap and a text-to-speech request, the health endpoint
    was asked once. *)
Lemma health_polling_counterexample :
  fetches_of api_health (dom (lifetime blank_page a_visit)) = 1%nat
  /\ ~ (1 < fetches_of api_health (dom (lifetime blank_page a_visit)))%nat.
Proof. split; [reflexivity|]. vm_compute. lia. Qed.





(** * The further statements on the sample pages *)

(** X2 on a page with text to speak. *)
Lemma clear_keeps_tts_text_witness :
  str_truthy (trim (ttsText speak_page)) = true
  /\ exists a k,
       tts (cleared speak_page)
       = Wait (log (Fetch (tts_request (cleared speak_page))) a) k
       /\ request_text (tts_request (cleared speak_page))
          = [utf16 "salut"].
Proof.
  split; [reflexivity|].
  destruct (@clear_keeps_tts_text Z _ speak_page eq_refl) as (a & k & E & T).
  exists a, k. split; [exact E | exact T].
Defined.

(** X3 on a page that shows a translation. *)
Lemma swap_then_translate_witness :
  str_truthy (trim (outText translation_page)) = true
  /\ returns (@swap Z) translation_page (swapped translation_page)
  /\ request_text (translate_request (swapped translation_page))
     = [utf16 "bonjour"].
Proof.
  split; [reflexivity|].
  destruct (@swap_then_translate Z _ translation_page eq_refl)
    as (S & a & k & _ & T & _).
  split; [exact S | exact T].
Defined.

(** X4 on the blank page and on a page that shows a translation, with and
    without a clipboard interface. *)
Lemma copy_translation_outcomes_witness :
  forallb is_js_space (outText blank_page) = true
  /\ str_truthy (trim (outText translation_page)) = true
  /\ clipboardApi translation_page = true
  /\ clipboardApi old_browser_page = false
  /\ (exists k,
        @copyTranslation Z translation_page
        = Wait (log (ClipboardWrite (utf16 "bonjour")) translation_page) k
        /\ exists q',
             k Rejected translation_page = Ret tt q'
             /\ trace q' = [ExecCopy (utf16 " bonjour ")])
  /\ exists p',
       returns (@copyTranslation Z) old_browser_page p'
       /\ trace p' = [ExecCopy (utf16 " bonjour ")].
Proof.
  split; [reflexivity|]. split; [reflexivity|]. split; [reflexivity|].
  split; [reflexivity|].
  destruct (copy_translation_outcomes (num:=Z) blank_page translation_page
              old_browser_page translation_page eq_refl eq_refl eq_refl
              eq_refl eq_refl)
    as (_ & (k & E & _ & q' & K & T & _) & (p' & R & T' & _)).
  split.
  - exists k. split; [exact E|]. exists q'. split; [exact K | exact T].
  - exists p'. split; [exact R | exact T'].
Defined.

(** X6 on a page with a file chosen. *)
Lemma stt_outcomes_witness :
  audioInput blank_page = []
  /\ audioInput audio_page = [clip]
  /\ truthy (get transcribed "success") = true
  /\ exists a q',
       suspends_then stt audio_page a (ok 200 transcribed) audio_page q'
       /\ srcText q' = utf16 "good morning".
Proof.
  split; [reflexivity|]. split; [reflexivity|]. split; [reflexivity|].
  destruct (stt_outcomes blank_page audio_page audio_page clip [] 200
              transcribed eq_refl eq_refl eq_refl)
    as (_ & a & q' & S & _ & T & _).
  eexists _, q'. split; [exact S|].
  destruct (T (utf16 "good morning") eq_refl) as (E & _). exact E.
Defined.

(** X7 on the same transcription. *)
Lemma dictation_then_translate_witness :
  audioInput audio_page = [clip]
  /\ get transcribed "text" = VStr (utf16 "good morning")
  /\ exists a q' b k,
       suspends_then stt audio_page a (ok 200 transcribed) audio_page q'
       /\ translate q' = Wait (log (Fetch (translate_request q')) b) k
       /\ request_text (translate_request q') = [utf16 "good morning"].
Proof.
  split; [reflexivity|]. split; [reflexivity|].
  destruct (dictation_then_translate audio_page audio_page clip [] 200
              transcribed (utf16 "good morning") eq_refl eq_refl eq_refl
              eq_refl) as (a & q' & b & k & S & E & T).
  exists a, q', b, k. split; [exact S|]. split; [exact E | exact T].
Defined.

(** X8 on the three sample pages. *)
Lemma tts_text_choice_witness :
  str_truthy (trim (ttsText speak_page)) = true
  /\ ttsText hello_page = []
  /\ forallb is_js_space (ttsText spaces_page) = true
  /\ request_text (tts_request speak_page) = [utf16 "salut"]
  /\ request_text (tts_request hello_page) = [utf16 "hello"]
  /\ returns tts spaces_page
       (alert_shown (utf16 "Enter text for TTS") (utf16 "alert") spaces_page).
Proof.
  split; [reflexivity|]. split; [reflexivity|]. split; [reflexivity|].
  destruct (@tts_text_choice Z _ speak_page hello_page spaces_page eq_refl
              eq_refl eq_refl ltac:(discriminate) eq_refl)
    as ((_ & _ & _ & T1) & (_ & _ & _ & T2) & R3).
  split; [exact T1|]. split; [exact T2 | exact R3].
Defined.

(** X9 on a rejected fetch. *)
Lemma request_status_resolved_witness :
  str_truthy (trim (srcText hello_page)) = true
  /\ audioInput audio_page = [clip]
  /\ exists a q',
       suspends_then translate hello_page a (@Rejected Z) blank_page q'
       /\ status_is "info" a
       /\ (status_is "success" q' \/ status_is "error" q').
Proof.
  split; [reflexivity|]. split; [reflexivity|].
  destruct (request_status_resolved hello_page audio_page hello_page
              blank_page clip [] Rejected eq_refl eq_refl eq_refl)
    as (T & _).
  exact T.
Defined.

(** X11 on a rejected fetch and on a body without a language map. *)
Lemma languages_failure_outcomes_witness :
  @no_json Z Rejected
  /\ entries (get service_down "languages") = None
  /\ exists a,
       suspends_then loadLanguages blank_page a (ok 503 service_down)
         blank_page (load_failed (set_tgtLang [] blank_page)).
Proof.
  split; [now left|]. split; [reflexivity|].
  destruct (languages_failure_outcomes blank_page blank_page Rejected 503
              service_down (or_introl eq_refl) eq_refl)
    as (_ & a & S & _).
  exists a. exact S.
Defined.

(** X12 on the map [{fr: "French", de: "German"}]. *)
Lemma first_language_without_english_witness :
  get french_german_body "languages" = VObj french_german
  /\ labelled french_german
     = [(utf16 "fr", utf16 "French"); (utf16 "de", utf16 "German")]
  /\ ~ In (utf16 "en") [utf16 "fr"; utf16 "de"]
  /\ exists a q',
       suspends_then loadLanguages blank_page a (ok 200 french_german_body)
         blank_page q'
       /\ select_value (tgtLang q') = utf16 "fr".
Proof.
  assert (N : ~ In (utf16 "en") [utf16 "fr"; utf16 "de"]).
  { vm_compute. intros [E | [E | []]]; discriminate E. }
  split; [reflexivity|]. split; [reflexivity|]. split; [exact N|].
  destruct (first_language_without_english blank_page blank_page 200
              french_german_body french_german (utf16 "fr", utf16 "French")
              [(utf16 "de", utf16 "German")] eq_refl eq_refl N)
    as (a & q' & S & _ & V & _).
  exists a, q'. split; [exact S | exact V].
Defined.

(** X13 on a user who types and clicks before the page has loaded. *)
Lemma clicks_wait_for_load_witness :
  Forall (@not_settlement Z)
    [Edit sourceText (utf16 "hello"); Click btnTranslate]
  /\ trace (dom (lifetime blank_page
                   [Edit sourceText (utf16 "hello"); Click btnTranslate;
                    Settle 0 (ok 200 healthy_body); Click btnTranslate]))
     = [Fetch (get_request api_health); Fetch (get_request api_langs)].
Proof.
  assert (F : Forall (@not_settlement Z)
                [Edit sourceText (utf16 "hello"); Click btnTranslate]).
  { repeat constructor. }
  assert (G : Forall (@not_settlement Z) [Click btnTranslate]).
  { repeat constructor. }
  split; [exact F|].
  destruct (clicks_wait_for_load blank_page (ok 200 healthy_body) _ _ F G)
    as (_ & _ & T).
  exact T.
Defined.

(** X14 on a visit during which both requests fail. *)
Lemma listeners_registered_after_load_witness :
  Forall (@not_settlement Z) []
  /\ listeners (dom (lifetime blank_page [Settle 0 Rejected;
                                          Settle 0 (@Rejected Z)]))
     = all_listeners.
Proof.
  split; [constructor|].
  destruct (listeners_registered_after_load blank_page Rejected
              (@Rejected Z) [] [] (Forall_nil _) (Forall_nil _)) as (L & _).
  exact L.
Defined.

(** X16 on the sample visit. *)
Lemma one_alert_at_a_time_witness :
  (List.length (alerts blank_page) <= 1)%nat
  /\ (List.length (alerts (dom (lifetime blank_page a_visit))) <= 1)%nat.
Proof.
  assert (L : (List.length (alerts blank_page) <= 1)%nat) by (cbn; lia).
  split; [exact L|]. exact (one_alert_at_a_time blank_page a_visit L).
Defined.

(** X17 on a page that still shows an earlier error. *)
Lemma stale_results_witness :
  str_truthy (trim (srcText hello_page)) = true
  /\ truthy (get translated "success") = true
  /\ truthy (get spoken "success") = true
  /\ truthy (get spoken "audio_url") = true
  /\ get refused "success" = VBool false
  /\ (exists a q',
        suspends_then translate hello_page a (ok 200 translated) error_page q'
        /\ alerts q' = alerts error_page)
  /\ exists a q',
       suspends_then tts hello_page a (ok 200 spoken) error_page q'
       /\ alerts q' = alerts error_page.
Proof.
  split; [reflexivity|]. split; [reflexivity|]. split; [reflexivity|].
  split; [reflexivity|]. split; [reflexivity|].
  destruct (stale_results hello_page hello_page error_page 200 translated
              spoken refused Rejected (utf16 "bonjour") (utf16 "en")
              (utf16 "fr") (utf16 "/audio/1.mp3") eq_refl eq_refl eq_refl
              eq_refl eq_refl eq_refl eq_refl eq_refl eq_refl eq_refl
              (or_introl eq_refl))
    as ((a & q' & S & A & _) & (a2 & q2 & S2 & A2) & _).
  split.
  - exists a, q'. split; [exact S | exact A].
  - exists a2, q2. split; [exact S2 | exact A2].
Defined.
